(** * SOLA Vatzka Max 65 API: the record catalogue and the routes

    A shallow embedding of [schemas.py] (the pydantic models) and [main.py]
    (the FastAPI routes), with the properties of the specification stated
    over it.

    Layout:
    - [Py]        Python values, dictionaries and the string helpers used;
    - [pydantic]  field declarations and lax-mode validation (pydantic v2,
                  the version that has [model_fields]);
    - [schemas]   the models of [schemas.py];
    - [fastapi]   request validation and the mapping of outcomes to statuses;
    - [main]      the handlers and routes of [main.py], over an interface
                  for the [database] module;
    - [database]  a store behind that interface;
    - the theorems. *)

From Stdlib Require Import ZArith QArith List String Ascii Bool Lia.
From Stdlib Require Import DecimalString DecimalZ.
From stdpp Require Import gmap strings.
Import ListNotations.
Local Open Scope string_scope.
Local Open Scope Z_scope.
Local Open Scope list_scope.
Set Warnings "-register-all".

(* ===================================================================== *)
(** * Python values *)
(* ===================================================================== *)

Module Py.

(** The Python objects that travel through the routes: what [json.loads]
    produces from a request body (None, bool, int, float, str, list, dict)
    and the identifier objects the store puts under ["_id"].  A finite
    float is represented by the rational number it denotes; an ObjectId by
    its text. *)
Inductive value : Type :=
| VNone
| VBool (b : bool)
| VInt (n : Z)
| VFloat (q : Q)
| VStr (s : string)
| VList (items : list value)
| VDict (entries : list (string * value))
| VObjectId (oid : string).

(** A [dict] with [str] keys, in insertion order. *)
Definition dict : Type := list (string * value).

(** [d.get(k)], with [None] of [option] for an absent key. *)
Fixpoint dict_get (k : string) (d : dict) : option value :=
  match d with
  | [] => None
  | (k', v) :: rest => if String.eqb k' k then Some v else dict_get k rest
  end.

(** [d[k] = v]: an existing key keeps its position, a new key goes last. *)
Fixpoint dict_set (d : dict) (k : string) (v : value) : dict :=
  match d with
  | [] => [(k, v)]
  | (k', v') :: rest =>
      if String.eqb k' k then (k', v) :: rest else (k', v') :: dict_set rest k v
  end.

(** [d.get(k)] as a Python expression: the value, or the object [None]. *)
Definition get (d : dict) (k : string) : value :=
  match dict_get k d with Some v => v | None => VNone end.

(** Truth value of an object, as [if x] tests it. *)
Definition truthy (v : value) : bool :=
  match v with
  | VNone => false
  | VBool b => b
  | VInt n => negb (n =? 0)
  | VFloat q => negb (Qeq_bool q 0)
  | VStr s => negb (String.eqb s "")
  | VList items => match items with [] => false | _ => true end
  | VDict entries => match entries with [] => false | _ => true end
  | VObjectId _ => true
  end.

(** Structural equality of values, used for exact-match filters. *)
Fixpoint value_eqb (a b : value) : bool :=
  match a, b with
  | VNone, VNone => true
  | VBool x, VBool y => Bool.eqb x y
  | VInt x, VInt y => x =? y
  | VFloat x, VFloat y => Qeq_bool x y
  | VStr x, VStr y => String.eqb x y
  | VList xs, VList ys =>
      (fix go (xs ys : list value) : bool :=
         match xs, ys with
         | [], [] => true
         | x :: xs', y :: ys' => value_eqb x y && go xs' ys'
         | _, _ => false
         end) xs ys
  | VDict xs, VDict ys =>
      (fix go (xs ys : list (string * value)) : bool :=
         match xs, ys with
         | [], [] => true
         | (k, x) :: xs', (k', y) :: ys' =>
             String.eqb k k' && value_eqb x y && go xs' ys'
         | _, _ => false
         end) xs ys
  | VObjectId x, VObjectId y => String.eqb x y
  | _, _ => false
  end.

(** [s.lower()] on the ASCII letters. *)
Definition lower_ascii (c : ascii) : ascii :=
  let n := nat_of_ascii c in
  if ((65 <=? n) && (n <=? 90))%nat then ascii_of_nat (n + 32) else c.

Fixpoint lower (s : string) : string :=
  match s with
  | EmptyString => EmptyString
  | String c rest => String (lower_ascii c) (lower rest)
  end.

(** White space as [strip] sees it: tab, line feed, vertical tab, form
    feed, carriage return and space. *)
Definition is_space (c : ascii) : bool :=
  let n := nat_of_ascii c in
  (((9 <=? n) && (n <=? 13)) || (n =? 32))%nat.

Fixpoint lstrip (s : string) : string :=
  match s with
  | EmptyString => EmptyString
  | String c rest => if is_space c then lstrip rest else s
  end.

Fixpoint rstrip (s : string) : string :=
  match s with
  | EmptyString => EmptyString
  | String c rest =>
      match rstrip rest with
      | EmptyString => if is_space c then EmptyString else String c EmptyString
      | kept => String c kept
      end
  end.

Definition strip (s : string) : string := rstrip (lstrip s).

(** [str(n)] for an int: its decimal numeral. *)
Definition str_int (n : Z) : string := NilZero.string_of_int (Z.to_int n).

(** The characters of a decimal numeral: the digits and the minus sign. *)
Definition is_numeral_char (c : ascii) : bool :=
  let n := nat_of_ascii c in
  (((48 <=? n) && (n <=? 57)) || (n =? 45))%nat.

(** The characters of a numeral with an optional plus sign, and those of
    a numeral with a fraction. *)
Definition is_int_char (c : ascii) : bool :=
  is_numeral_char c || Ascii.eqb c "+".

Definition is_spelling_char (c : ascii) : bool :=
  is_int_char c || Ascii.eqb c ".".

Fixpoint string_forallb (p : ascii -> bool) (s : string) : bool :=
  match s with
  | EmptyString => true
  | String c rest => p c && string_forallb p rest
  end.

(** A [str] is a sequence of characters; here it is the sequence of the
    bytes of its UTF-8 encoding.  A character starts at every byte that is
    not a continuation byte (10xxxxxx). *)
Definition is_continuation (c : ascii) : bool :=
  let n := nat_of_ascii c in
  ((128 <=? n) && (n <? 192))%nat.

(** [len(s)]: the number of characters. *)
Fixpoint char_count (s : string) : nat :=
  match s with
  | EmptyString => O
  | String c rest =>
      if is_continuation c then char_count rest else S (char_count rest)
  end.

(** [s[:n]]: the first [n] characters, each with all of its bytes. *)
Fixpoint slice_to (n : nat) (s : string) : string :=
  match s with
  | EmptyString => EmptyString
  | String c rest =>
      if is_continuation c then String c (slice_to n rest)
      else
        match n with
        | O => EmptyString
        | S n' => String c (slice_to n' rest)
        end
  end.





(** One entry of a pydantic validation error: the kind of failure and the
    path to the offending input (keys and list positions).  The message
    text, the echoed input and the context are left out. *)
Inductive LocItem : Type :=
| LKey (key : string)
| LIdx (index : nat).

Record ErrorDetails : Type := mkError {
  type : string;
  loc : list LocItem
}.

(** Exceptions that reach a handler.  An exception raised by the store is
    an [Exception] with its message, the text [str(e)] gives. *)
Inductive exn : Type :=
| Exception (msg : string)
| AttributeError (attr : string)
| ValidationError (title : string) (errors : list ErrorDetails).

Inductive result (A : Type) : Type :=
| Raise (e : exn)
| Return (a : A).
Arguments Raise {A} e.
Arguments Return {A} a.

#[export] Instance result_ret : MRet result := fun A a => Return a.
#[export] Instance result_bind : MBind result := fun A B k r =>
  match r with
  | Raise e => Raise e
  | Return a => k a
  end.

End Py.

Export Py.

(* ===================================================================== *)
(** * pydantic: field declarations and validation *)
(* ===================================================================== *)

Module pydantic.

(** The annotations that the models used by [main.py] carry. *)
Inductive ann : Type :=
| TStr
| TInt
| TOptional (a : ann)
| TList (a : ann).

(** What [Field(...)] (or a bare default) says about a missing input:
    [Field(...)] with the ellipsis is [Required], [default_factory=list]
    is [DefaultFactory] of the empty list. *)
Inductive FieldDefault : Type :=
| Required
| Default (v : value)
| DefaultFactory (make : unit -> value).

Record FieldInfo : Type := mkField {
  annotation : ann;
  default : FieldDefault;
  ge : option Z;
  le : option Z
}.

(** A model class: its name and its fields in declaration order. *)
Record ModelClass : Type := mkModel {
  __name__ : string;
  model_fields : list (string * FieldInfo)
}.

(** An instance of a model: the validated field values, in declaration
    order.  [model_dump] is this dictionary. *)
Record BaseModel : Type := mkInstance {
  __class__ : ModelClass;
  model_dump : dict
}.

(** Attribute access on an instance. *)
Definition getattr (obj : BaseModel) (attr : string) : result value :=
  match dict_get attr (model_dump obj) with
  | Some v => Return v
  | None => Raise (AttributeError attr)
  end.

(** ** The int validator in lax mode

    A text is stripped of surrounding white space; a text of more than
    4300 bytes is then refused for its size; otherwise it is read as a
    decimal numeral with an optional sign, and, failing that, as such a
    numeral followed by a dot and zeros only.  Zeros may lead the digits,
    but not after a minus sign.  What is read here is what every release
    of the library reads: a dot with nothing after it, digit-group
    underscores and white space outside ASCII, which some releases accept,
    are parse failures here. *)
Definition leading_zero (digits : string) : bool :=
  match digits with
  | String "0" (String _ _) => true
  | _ => false
  end.

Definition parse_int (s : string) : option Z :=
  match s with
  | String "+" digits =>
      option_map (fun u => Z.of_int (Decimal.Pos u)) (NilZero.uint_of_string digits)
  | String "-" digits =>
      if leading_zero digits then None
      else option_map (fun u => Z.of_int (Decimal.Neg u)) (NilZero.uint_of_string digits)
  | digits =>
      option_map (fun u => Z.of_int (Decimal.Pos u)) (NilZero.uint_of_string digits)
  end.

Definition only_zeros (s : string) : bool :=
  match s with
  | EmptyString => false
  | _ => string_forallb (Ascii.eqb "0") s
  end.

(** The text before the first dot, when zeros and only zeros follow it. *)
Fixpoint strip_decimal_zeros (s : string) : option string :=
  match s with
  | EmptyString => None
  | String c rest =>
      if Ascii.eqb c "." then
        if only_zeros rest then Some EmptyString else None
      else option_map (String c) (strip_decimal_zeros rest)
  end.

Definition too_long (s : string) : bool := (4300 <? String.length s)%nat.
Arguments too_long : simpl never.

(** The outcome is the integer read or the type of the error. *)
Definition str_as_int (s : string) : string + Z :=
  let text := strip s in
  if too_long text then inl "int_parsing_size"
  else
    match parse_int text with
    | Some n => inr n
    | None =>
        match strip_decimal_zeros text with
        | Some whole =>
            match parse_int whole with
            | Some n => inr n
            | None => inl "int_parsing"
            end
        | None => inl "int_parsing"
        end
    end.

(** A float is an int when it has no fractional part and lies strictly
    between the bounds of a signed 64-bit integer. *)
Definition float_as_int (q : Q) : string + Z :=
  let r := Qred q in
  if (Qden r =? 1)%positive then
    if (- 2 ^ 63 <? Qnum r) && (Qnum r <? 2 ^ 63) then inr (Qnum r)
    else inl "int_parsing_size"
  else inl "int_from_float".

(** The outcome is the integer read or the type of the error. *)
Definition int_validator (v : value) : string + Z :=
  match v with
  | VInt n => inr n
  | VBool b => inr (if b then 1 else 0)
  | VStr s => str_as_int s
  | VFloat q => float_as_int q
  | _ => inl "int_type"
  end.


Definition str_validator (v : value) : string + string :=
  match v with
  | VStr s => inr s
  | _ => inl "string_type"
  end.

Definition prefix_loc (item : LocItem) (e : ErrorDetails) : ErrorDetails :=
  mkError (type e) (item :: loc e).

(** Items of a list are validated one by one; every failing item is
    reported under its position. *)
Fixpoint validate_items (validate_item : value -> list ErrorDetails + value)
    (index : nat) (items : list value) : list ErrorDetails * list value :=
  match items with
  | [] => ([], [])
  | item :: rest =>
      let (errors, values) := validate_items validate_item (S index) rest in
      match validate_item item with
      | inl es => (List.map (prefix_loc (LIdx index)) es ++ errors, values)
      | inr v => (errors, v :: values)
      end
  end.

(** Validation against an annotation. *)
Fixpoint validate_ann (a : ann) (v : value) : list ErrorDetails + value :=
  match a with
  | TStr =>
      match str_validator v with
      | inr s => inr (VStr s)
      | inl t => inl [mkError t []]
      end
  | TInt =>
      match int_validator v with
      | inr n => inr (VInt n)
      | inl t => inl [mkError t []]
      end
  | TOptional a' =>
      match v with
      | VNone => inr VNone
      | _ => validate_ann a' v
      end
  | TList a' =>
      match v with
      | VList items =>
          match validate_items (validate_ann a') 0 items with
          | ([], values) => inr (VList values)
          | (errors, _) => inl errors
          end
      | _ => inl [mkError "list_type" []]
      end
  end.

(** The bounds of a field, checked on the integer that validation read. *)
Definition check_bounds (info : FieldInfo) (v : value) : list ErrorDetails :=
  match v with
  | VInt n =>
      match le info with
      | Some hi => if n <=? hi then [] else [mkError "less_than_equal" []]
      | None => []
      end ++
      match ge info with
      | Some lo => if lo <=? n then [] else [mkError "greater_than_equal" []]
      | None => []
      end
  | _ => []
  end.

(** One field: a missing input takes the default (which is not validated)
    or is an error when the field is required; a supplied input is
    validated against the annotation and then against the bounds. *)
Definition validate_field (name : string) (info : FieldInfo)
    (input : option value) : list ErrorDetails + value :=
  match input with
  | None =>
      match default info with
      | Required => inl [mkError "missing" [LKey name]]
      | Default v => inr v
      | DefaultFactory make => inr (make tt)
      end
  | Some v =>
      match validate_ann (annotation info) v with
      | inl errors => inl (List.map (prefix_loc (LKey name)) errors)
      | inr v' =>
          match check_bounds info v' with
          | [] => inr v'
          | errors => inl (List.map (prefix_loc (LKey name)) errors)
          end
      end
  end.

(** All fields, in declaration order; keys of the input that are not
    fields are ignored.  Errors of all fields are collected. *)
Fixpoint validate_fields (fields : list (string * FieldInfo)) (input : dict)
    : list ErrorDetails * dict :=
  match fields with
  | [] => ([], [])
  | (name, info) :: rest =>
      let (errors, values) := validate_fields rest input in
      match validate_field name info (dict_get name input) with
      | inl es => (es ++ errors, values)
      | inr v => (errors, (name, v) :: values)
      end
  end.

(** [Model.model_validate(input)]. *)
Definition model_validate (cls : ModelClass) (input : value)
    : list ErrorDetails + BaseModel :=
  match input with
  | VDict entries =>
      match validate_fields (model_fields cls) entries with
      | ([], values) => inr (mkInstance cls values)
      | (errors, _) => inl errors
      end
  | _ => inl [mkError "model_attributes_type" []]
  end.

(** [Model(field=..., ...)]: the constructor validates its keyword arguments
    and raises [ValidationError] when they do not pass. *)
Definition construct (cls : ModelClass) (kwargs : dict) : result BaseModel :=
  match model_validate cls (VDict kwargs) with
  | inr obj => Return obj
  | inl errors => Raise (ValidationError (__name__ cls) errors)
  end.

End pydantic.

Export pydantic.

(* ===================================================================== *)
(** * schemas.py *)
(* ===================================================================== *)

Module schemas.

(** [schemas.py] declares seven models.  [User] and [Product] are not
    imported by [main.py] and no route validates against them; they appear
    below by class name only. *)
Definition not_imported : list string := ["User"; "Product"].

(** Realtime comm channel. *)
Definition Channel : ModelClass :=
  mkModel "Channel"
    [ ("name", mkField TStr Required None None);
      ("topic", mkField (TOptional TStr) (Default VNone) None None) ].

(** Messages sent within a channel. *)
Definition Message : ModelClass :=
  mkModel "Message"
    [ ("channel_id", mkField TStr Required None None);
      ("sender", mkField TStr Required None None);
      ("text", mkField (TOptional TStr) (Default VNone) None None);
      ("voice_url", mkField (TOptional TStr) (Default VNone) None None) ].

(** Payment record for subscriptions or purchases. *)
Definition PaymentIntent : ModelClass :=
  mkModel "PaymentIntent"
    [ ("user_email", mkField TStr Required None None);
      ("plan", mkField TStr Required None None);
      ("amount_cents", mkField TInt Required (Some 0) None);
      ("currency", mkField TStr (Default (VStr "USD")) None None);
      ("status", mkField TStr (Default (VStr "created")) None None) ].

(** Music project sessions metadata. *)
Definition Project : ModelClass :=
  mkModel "Project"
    [ ("title", mkField TStr Required None None);
      ("bpm", mkField TInt (Default (VInt 120)) (Some 40) (Some 300));
      ("key", mkField TStr (Default (VStr "C Major")) None None);
      ("tracks", mkField (TList TStr) (DefaultFactory (fun _ => VList [])) None None) ].

(** External MIDI/OTG device metadata. *)
Definition Device : ModelClass :=
  mkModel "Device"
    [ ("name", mkField TStr Required None None);
      ("manufacturer", mkField (TOptional TStr) (Default VNone) None None);
      ("connection", mkField TStr Required None None) ].

End schemas.

Export schemas.

(* ===================================================================== *)
(** * FastAPI: requests in, statuses out *)
(* ===================================================================== *)

Module fastapi.

(** What a client sees.  A request that fails validation is answered 422
    with the list of errors; an exception that escapes the handler is
    answered 500 without detail; a returned value is answered 200 with the
    value as JSON. *)
Inductive Response : Type :=
| Response200 (content : value)
| Response422 (detail : list ErrorDetails)
| Response500.

(** [Query(default, ge=..., le=...)] on an [int] parameter. *)
Definition Query (default : value) (ge le : option Z) : FieldInfo :=
  mkField TInt (Default default) ge le.

(** A JSON body bound to a model parameter. *)
Definition validate_body (cls : ModelClass) (body : value)
    : list ErrorDetails + BaseModel :=
  match model_validate cls body with
  | inl errors => inl (List.map (prefix_loc (LKey "body")) errors)
  | inr obj => inr obj
  end.

(** The query string, as [request.query_params.get] reads it: the text
    given for a name, if any. *)
Definition QueryParams : Type := string -> option string.

(** A query parameter, validated as a field. *)
Definition validate_query (name : string) (info : FieldInfo) (query : QueryParams)
    : list ErrorDetails + value :=
  match validate_field name info (option_map VStr (query name)) with
  | inl errors => inl (List.map (prefix_loc (LKey "query")) errors)
  | inr v => inr v
  end.

Definition errors_of {A} (r : list ErrorDetails + A) : list ErrorDetails :=
  match r with
  | inl errors => errors
  | inr _ => []
  end.

(** The answer is a 422 whose detail has an entry at the given place. *)
Definition rejects_at (place : list LocItem) (r : Response) : Prop :=
  exists detail : list ErrorDetails,
    r = Response422 detail /\ exists e, In e detail /\ loc e = place.

Definition respond (r : result value) : Response :=
  match r with
  | Return content => Response200 content
  | Raise _ => Response500
  end.

End fastapi.

Export fastapi.

(* ===================================================================== *)
(** * main.py *)
(* ===================================================================== *)

Module main.

(** ** The interface of the [database] module

    [main.py] imports [db], [create_document] and [get_documents] from a
    module that is not part of the sources at hand.  [DB] is the state of
    that module: the handle [db] and whatever lies behind it.  An operation
    that raises is [inl] of the message of the exception. *)
Inductive attr_lookup : Type :=
| NoAttribute
| Attribute (v : value)
| AttributeRaises (msg : string).

Class database (DB : Type) : Type := {
  (** [db is None] *)
  db_is_None : DB -> bool;
  (** [db.name], as [hasattr] and attribute access find it *)
  db_name : DB -> attr_lookup;
  (** [db.list_collection_names()] *)
  db_list_collection_names : DB -> string + list string;
  create_document : string -> BaseModel -> DB -> (string + string) * DB;
  get_documents : string -> dict -> value -> DB -> string + list dict
}.

Definition raised {A} (r : string + A) : result A :=
  match r with
  | inl msg => Raise (Exception msg)
  | inr a => Return a
  end.

(** ** Building the report of [/test]

    The report is a dictionary that the function updates as it goes, so an
    exception leaves in it what was written before it was raised. *)
Definition proc (A : Type) : Type := dict -> (string + A) * dict.

#[export] Instance proc_ret : MRet proc := fun A a response => (inr a, response).
#[export] Instance proc_bind : MBind proc := fun A B k m response =>
  match m response with
  | (inl e, response') => (inl e, response')
  | (inr a, response') => k a response'
  end.

(** [response[k] = v] *)
Definition setitem (k : string) (v : value) : proc unit :=
  fun response => (inr tt, dict_set response k v).

(** An expression that yields a value or raises. *)
Definition eval {A} (r : string + A) : proc A :=
  fun response => (r, response).

(** [try: body except Exception as e: handler] *)
Definition try_except {A} (body : proc A) (handler : string -> proc A) : proc A :=
  fun response =>
    match body response with
    | (inl e, response') => handler e response'
    | ok => ok
    end.

(** Truth value of what [os.getenv] returns. *)
Definition is_set (v : option string) : bool :=
  match v with
  | Some s => truthy (VStr s)
  | None => false
  end.

Section routes.

Context {DB : Type} `{!database DB}.

(** [repr] of the objects whose text form is not spelled out here (floats
    and containers), as the [str] builtin falls back on it. *)
Variable repr : value -> string.

(** The [str] builtin. *)
Definition str (v : value) : string :=
  match v with
  | VNone => "None"
  | VBool true => "True"
  | VBool false => "False"
  | VInt n => str_int n
  | VStr s => s
  | VObjectId oid => oid
  | other => repr other
  end.

(** *** GET /test *)

Definition test_database_try (db : DB) : proc unit :=
  try_except
    (if negb (db_is_None db) then
       setitem "database" (VStr "✅ Available");;
       setitem "database_url" (VStr "✅ Configured");;
       name ← eval (match db_name db with
                    | Attribute v => inr v
                    | NoAttribute => inr (VStr "✅ Connected")
                    | AttributeRaises msg => inl msg
                    end);
       setitem "database_name" name;;
       setitem "connection_status" (VStr "Connected");;
       try_except
         (collections ← eval (db_list_collection_names db);
          setitem "collections" (VList (List.map VStr (firstn 10 collections)));;
          setitem "database" (VStr "✅ Connected & Working"))
         (fun e =>
            setitem "database"
              (VStr ("⚠️  Connected but Error: " ++ slice_to 50 e)%string))
     else
       setitem "database" (VStr "⚠️  Available but not initialized"))
    (fun e => setitem "database" (VStr ("❌ Error: " ++ slice_to 50 e)%string)).

Definition test_database (getenv : string -> option string) (db : DB)
    : result value :=
  let response : dict :=
    [ ("backend", VStr "✅ Running");
      ("database", VStr "❌ Not Available");
      ("database_url", VNone);
      ("database_name", VNone);
      ("connection_status", VStr "Not Connected");
      ("collections", VList []) ] in
  let body : proc unit :=
    test_database_try db;;
    setitem "database_url"
      (VStr (if is_set (getenv "DATABASE_URL") then "✅ Set" else "❌ Not Set"));;
    setitem "database_name"
      (VStr (if is_set (getenv "DATABASE_NAME") then "✅ Set" else "❌ Not Set")) in
  match body response with
  | (inl e, _) => Raise (Exception e)
  | (inr _, response') => Return (VDict response')
  end.

Definition GET_test (getenv : string -> option string) (db : DB) : Response :=
  respond (test_database getenv db).

(** *** GET /schema *)

Definition SchemaResponse : ModelClass :=
  mkModel "SchemaResponse"
    [ ("name", mkField TStr Required None None);
      ("fields", mkField (TList TStr) Required None None) ].

Definition get_schema : result (list BaseModel) :=
  let models := [Channel; Message; PaymentIntent; Project; Device] in
  mapM (fun m =>
          construct SchemaResponse
            [ ("name", VStr (lower (__name__ m)));
              ("fields", VList (List.map VStr (List.map fst (model_fields m)))) ])
       models.

(** [response_model=List[SchemaResponse]]: the instances are dumped. *)
Definition GET_schema : Response :=
  respond (out ← get_schema;
           mret (VList (List.map (fun o => VDict (model_dump o)) out))).

(** *** Listing *)

(** [for d in docs: d["_id"] = str(d.get("_id"))] *)
Definition stringify_ids (docs : list dict) : list dict :=
  List.map (fun d => dict_set d "_id" (VStr (str (get d "_id")))) docs.

Definition documents (docs : list dict) : value := VList (List.map VDict docs).

Definition list_channels (limit : value) (db : DB) : result value :=
  docs ← raised (get_documents "channel" [] limit db);
  mret (documents (stringify_ids docs)).

Definition list_messages (channel_id limit : value) (db : DB) : result value :=
  let filt := if truthy channel_id then [("channel_id", channel_id)] else [] in
  docs ← raised (get_documents "message" filt limit db);
  mret (documents (stringify_ids docs)).

Definition list_projects (limit : value) (db : DB) : result value :=
  docs ← raised (get_documents "project" [] limit db);
  mret (documents (stringify_ids docs)).

Definition list_devices (limit : value) (db : DB) : result value :=
  docs ← raised (get_documents "device" [] limit db);
  mret (documents (stringify_ids docs)).

Definition GET_channels (query : QueryParams) (db : DB) : Response :=
  match validate_query "limit" (Query (VInt 20) (Some 1) (Some 100)) query with
  | inl errors => Response422 errors
  | inr limit => respond (list_channels limit db)
  end.

Definition GET_messages (query : QueryParams) (db : DB) : Response :=
  match validate_query "channel_id" (mkField (TOptional TStr) (Default VNone) None None) query,
        validate_query "limit" (Query (VInt 50) (Some 1) (Some 200)) query with
  | inr channel_id, inr limit => respond (list_messages channel_id limit db)
  | r1, r2 => Response422 (errors_of r1 ++ errors_of r2)
  end.

Definition GET_projects (query : QueryParams) (db : DB) : Response :=
  match validate_query "limit" (Query (VInt 20) (Some 1) (Some 100)) query with
  | inl errors => Response422 errors
  | inr limit => respond (list_projects limit db)
  end.

Definition GET_devices (query : QueryParams) (db : DB) : Response :=
  match validate_query "limit" (Query (VInt 50) (Some 1) (Some 200)) query with
  | inl errors => Response422 errors
  | inr limit => respond (list_devices limit db)
  end.

(** *** Creating *)

Definition create_channel (ch : BaseModel) (db : DB) : result value * DB :=
  let (r, db') := create_document "channel" ch db in
  (_id ← raised r; mret (VDict [("id", VStr _id)]), db').

Definition create_message (msg : BaseModel) (db : DB) : result value * DB :=
  let (r, db') := create_document "message" msg db in
  (_id ← raised r; mret (VDict [("id", VStr _id)]), db').

Definition create_project (project : BaseModel) (db : DB) : result value * DB :=
  let (r, db') := create_document "project" project db in
  (_id ← raised r; mret (VDict [("id", VStr _id)]), db').

Definition register_device (device : BaseModel) (db : DB) : result value * DB :=
  let (r, db') := create_document "device" device db in
  (_id ← raised r; mret (VDict [("id", VStr _id)]), db').

(** A route with a model as its body. *)
Definition post (cls : ModelClass)
    (handler : BaseModel -> DB -> result value * DB)
    (body : value) (db : DB) : Response * DB :=
  match validate_body cls body with
  | inl errors => (Response422 errors, db)
  | inr obj => let (r, db') := handler obj db in (respond r, db')
  end.

Definition POST_channels : value -> DB -> Response * DB := post Channel create_channel.
Definition POST_messages : value -> DB -> Response * DB := post Message create_message.
Definition POST_projects : value -> DB -> Response * DB := post Project create_project.
Definition POST_devices : value -> DB -> Response * DB := post Device register_device.

(** *** Payments *)

Definition CreatePaymentRequest : ModelClass :=
  mkModel "CreatePaymentRequest"
    [ ("user_email", mkField TStr Required None None);
      ("plan", mkField TStr Required None None);
      ("amount_cents", mkField TInt Required None None);
      ("currency", mkField TStr (Default (VStr "USD")) None None) ].

Definition create_payment_intent (data : BaseModel) (db : DB) : result value * DB :=
  let intent : result BaseModel :=
    user_email ← getattr data "user_email";
    plan ← getattr data "plan";
    amount_cents ← getattr data "amount_cents";
    currency ← getattr data "currency";
    construct PaymentIntent
      [ ("user_email", user_email);
        ("plan", plan);
        ("amount_cents", amount_cents);
        ("currency", currency);
        ("status", VStr "created") ] in
  match intent with
  | Raise e => (Raise e, db)
  | Return intent =>
      let (r, db') := create_document "paymentintent" intent db in
      (_id ← raised r;
       mret (VDict [("id", VStr _id); ("status", VStr "created")]), db')
  end.

Definition POST_payments_intent : value -> DB -> Response * DB :=
  post CreatePaymentRequest create_payment_intent.

(** *** The assistant (mocked) *)

Definition AssistantMessage : ModelClass :=
  mkModel "AssistantMessage" [ ("prompt", mkField TStr Required None None) ].



End routes.

End main.

Export main.

(* ===================================================================== *)
(** * The store behind the interface *)
(* ===================================================================== *)

Module database_model.

(** Modelled from the spec: the state of the [database] module, whose
    source is missing.  The store is either not configured ([None], the
    handle [db] is [None]) or configured; a configured store may be
    unreachable.  It keeps, per kind name, the records in insertion order,
    and counts the identifiers it has assigned. *)
Record Store : Type := mkStore {
  store_name : string;
  reachable : bool;
  collections : gmap string (list dict);
  assigned : nat
}.

Definition DB : Type := option Store.

(** Modelled from the spec: the records kept under a kind name. *)
Definition records (kind : string) (st : Store) : list dict :=
  match collections st !! kind with
  | Some docs => docs
  | None => []
  end.

(** Modelled from the spec: the next identifier, the numeral of the count
    of identifiers assigned so far. *)
Definition next_id (st : Store) : string :=
  NilZero.string_of_uint (Nat.to_uint (assigned st)).

(** Modelled from the spec: [create(kind, record) -> identifier] assigns a
    new identifier, persists the record verbatim plus the identifier, and
    returns the identifier as text; the record of the caller is left as it
    is.  It fails when the store is not configured or cannot be reached. *)
Definition create_document (kind : string) (obj : BaseModel) (db : DB)
    : (string + string) * DB :=
  match db with
  | None => (inl "Database not available", db)
  | Some st =>
      if reachable st then
        let oid := next_id st in
        let doc := model_dump obj ++ [("_id", VObjectId oid)] in
        (inr oid,
         Some (mkStore (store_name st) true
                 (<[kind := records kind st ++ [doc]]> (collections st))
                 (S (assigned st))))
      else (inl "Storage unavailable", db)
  end.

(** Modelled from the spec: a filter is a mapping from field name to
    exact-match value; the empty mapping filters nothing. *)
Definition matches (filt : dict) (doc : dict) : bool :=
  forallb (fun '(k, v) =>
             match dict_get k doc with
             | Some v' => value_eqb v v'
             | None => false
             end) filt.

(** Modelled from the spec: [list(kind, filter, limit)] returns, in
    insertion order, the records of the kind that satisfy the filter, at
    most [limit] of them.  It fails when the store is not configured or
    cannot be reached. *)
Definition get_documents (kind : string) (filt : dict) (limit : value) (db : DB)
    : string + list dict :=
  match db with
  | None => inl "Database not available"
  | Some st =>
      if reachable st then
        let found := List.filter (matches filt) (records kind st) in
        inr (match limit with
             | VInt n => firstn (Z.to_nat n) found
             | _ => found
             end)
      else inl "Storage unavailable"
  end.

(** Modelled from the spec: the handle as the availability probe sees it:
    absent when the store is not configured, and otherwise able to name
    itself and to list the collections that exist, unless the store cannot
    be reached. *)
#[global] Instance store_database : database DB := {
  db_is_None db := match db with None => true | Some _ => false end;
  db_name db :=
    match db with
    | None => NoAttribute
    | Some st => Attribute (VStr (store_name st))
    end;
  db_list_collection_names db :=
    match db with
    | None => inl "Database not available"
    | Some st =>
        if reachable st then inr (List.map fst (map_to_list (collections st)))
        else inl "Storage unavailable"
    end;
  create_document := create_document;
  get_documents := get_documents
}.

End database_model.

(* ===================================================================== *)
(** * States and requests used in examples *)
(* ===================================================================== *)

Module examples.

(** No example below keeps a float or a container under ["_id"], so what
    [repr] answers is immaterial. *)
Definition any_repr : value -> string := fun _ => "<object>".

(** A reachable store holding one channel and two messages, of two
    different channels. *)
Definition studio : database_model.DB :=
  Some (database_model.mkStore "studio" true
          (<["channel" := [ [("name", VStr "lobby"); ("topic", VNone);
                             ("_id", VObjectId "0")] ]]>
             (<["message" := [ [("channel_id", VStr "0"); ("sender", VStr "ada");
                                ("text", VStr "hi"); ("voice_url", VNone);
                                ("_id", VObjectId "1")];
                               [("channel_id", VStr ""); ("sender", VStr "bob");
                                ("text", VNone); ("voice_url", VNone);
                                ("_id", VObjectId "2")] ]]> ∅))
          3).

(** A store that was never configured. *)
Definition unconfigured : database_model.DB := None.

(** A configured store that cannot be reached. *)
Definition offline : database_model.DB :=
  Some (database_model.mkStore "studio" false ∅ 0).

(** Query strings. *)
Definition no_params : QueryParams := fun _ => None.

Definition params (entries : list (string * string)) : QueryParams :=
  fun name =>
    match List.find (fun entry => String.eqb (fst entry) name) entries with
    | Some entry => Some (snd entry)
    | None => None
    end.

End examples.

(* ===================================================================== *)
(** * Supporting lemmas *)
(* ===================================================================== *)

(** ** Numerals: what [str] writes, the int validator reads back *)

Lemma numeral_char_not_space (c : ascii) :
  is_numeral_char c = true -> is_space c = false.
Proof.
  destruct c as [[] [] [] [] [] [] [] []]; vm_compute; congruence.
Qed.

Lemma lstrip_numeral (s : string) :
  string_forallb is_numeral_char s = true -> lstrip s = s.
Proof.
  destruct s as [|c rest]; simpl; [reflexivity|].
  intros H. apply andb_prop in H as [Hc _].
  now rewrite (numeral_char_not_space c Hc).
Qed.

Lemma rstrip_numeral (s : string) :
  string_forallb is_numeral_char s = true -> rstrip s = s.
Proof.
  induction s as [|c rest IH]; simpl; [reflexivity|].
  intros H. apply andb_prop in H as [Hc Hrest].
  rewrite (IH Hrest), (numeral_char_not_space c Hc).
  now destruct rest.
Qed.

Lemma strip_numeral (s : string) :
  string_forallb is_numeral_char s = true -> strip s = s.
Proof.
  intros H. unfold strip. rewrite (lstrip_numeral s H). now apply rstrip_numeral.
Qed.

Lemma uint_numeral (d : Decimal.uint) :
  string_forallb is_numeral_char (NilEmpty.string_of_uint d) = true.
Proof. induction d; simpl; auto. Qed.

Lemma str_int_numeral (n : Z) :
  string_forallb is_numeral_char (str_int n) = true.
Proof.
  unfold str_int. destruct n as [|p|p]; simpl; [reflexivity| |].
  - unfold NilZero.string_of_uint.
    destruct (Pos.to_uint p) eqn:E; try (rewrite <- E; apply uint_numeral).
    reflexivity.
  - unfold NilZero.string_of_uint.
    destruct (Pos.to_uint p) eqn:E; try (rewrite <- E; apply uint_numeral).
    reflexivity.
Qed.

Lemma parse_int_digits (d : Decimal.uint) :
  parse_int (NilZero.string_of_uint d) =
  option_map (fun u => Z.of_int (Decimal.Pos u))
             (NilZero.uint_of_string (NilZero.string_of_uint d)).
Proof. destruct d; reflexivity. Qed.

(** The numeral of a positive number does not start with a zero. *)
Lemma to_uint_no_leading_zero (p : positive) :
  leading_zero (NilZero.string_of_uint (Pos.to_uint p)) = false.
Proof.
  assert (Hnorm : Pos.to_uint p = Decimal.unorm (Pos.to_uint p)).
  { rewrite <- DecimalPos.Unsigned.to_of, DecimalPos.Unsigned.of_to. reflexivity. }
  destruct (Pos.to_uint p) as [|d|d|d|d|d|d|d|d|d|d] eqn:E; try reflexivity.
  exfalso. unfold Decimal.unorm in Hnorm.
  destruct (Decimal.nzhead (Decimal.D0 d)) eqn:Hhead;
    try (symmetry in Hnorm; exact (DecimalFacts.nzhead_nonzero _ _
                                     (eq_trans Hhead Hnorm))).
  apply (DecimalPos.Unsigned.to_uint_nonzero p). now rewrite E, Hnorm.
Qed.

(** The numeral of [n] parses as [n]. *)
Lemma parse_int_str_int (n : Z) : parse_int (str_int n) = Some n.
Proof.
  destruct n as [|p|p]; [reflexivity| |].
  - unfold str_int. cbn [Z.to_int NilZero.string_of_int].
    rewrite parse_int_digits, NilZero.usu
      by apply DecimalPos.Unsigned.to_uint_nonnil.
    cbn [option_map]. change (Decimal.Pos (Pos.to_uint p)) with (Z.to_int (Zpos p)).
    now rewrite DecimalZ.of_to.
  - unfold str_int. cbn [Z.to_int NilZero.string_of_int]. unfold parse_int.
    rewrite to_uint_no_leading_zero, NilZero.usu
      by apply DecimalPos.Unsigned.to_uint_nonnil.
    cbn [option_map]. change (Decimal.Neg (Pos.to_uint p)) with (Z.to_int (Zneg p)).
    now rewrite DecimalZ.of_to.
Qed.

(** The int validator reads the numeral of [n] as [n], unless the numeral
    is too long to be read at all. *)
Lemma str_as_int_str_int (n : Z) :
  str_as_int (str_int n) =
    if too_long (str_int n) then inl "int_parsing_size" else inr n.
Proof.
  unfold str_as_int. cbv zeta. rewrite (strip_numeral _ (str_int_numeral n)).
  now rewrite parse_int_str_int.
Qed.

(** Numerals of up to three digits. *)
Lemma short_numeral (n : Z) :
  0 <= n <= 999 -> (String.length (str_int n) <= 3)%nat.
Proof.
  intros Hn.
  assert (Hall : forallb (fun k => (String.length (str_int (Z.of_nat k)) <=? 3)%nat)
                         (seq 0 1000) = true) by (vm_compute; reflexivity).
  rewrite forallb_forall in Hall.
  specialize (Hall (Z.to_nat n)). rewrite Z2Nat.id in Hall by lia.
  apply Nat.leb_le, Hall, in_seq. lia.
Qed.

Lemma not_too_long (s : string) :
  (String.length s <= 4300)%nat -> too_long s = false.
Proof. intros H. unfold too_long. now apply Nat.ltb_ge. Qed.

Lemma short_numeral_not_too_long (n : Z) :
  0 <= n <= 999 -> too_long (str_int n) = false.
Proof. intros Hn. apply not_too_long. pose proof (short_numeral n Hn). lia. Qed.

(** ** Texts that spell an integer *)

Lemma append_cons (c : ascii) (s t : string) :
  (String c s ++ t)%string = String c (s ++ t).
Proof. reflexivity. Qed.








Lemma spelling_char_not_space (c : ascii) :
  is_spelling_char c = true -> is_space c = false.
Proof.
  destruct c as [[] [] [] [] [] [] [] []]; vm_compute; congruence.
Qed.

Lemma lstrip_spelling (s : string) :
  string_forallb is_spelling_char s = true -> lstrip s = s.
Proof.
  destruct s as [|c rest]; simpl; [reflexivity|].
  intros H. apply andb_prop in H as [Hc _].
  now rewrite (spelling_char_not_space c Hc).
Qed.

























(** ** Floats without a fractional part *)





(** The int validator at work. *)
Example int_validator_examples :
  int_validator (VStr "128") = inr 128
  /\ int_validator (VStr "128.0") = inr 128
  /\ int_validator (VStr " 5.00 ") = inr 5
  /\ int_validator (VStr "+7") = inr 7
  /\ int_validator (VStr "-3") = inr (-3)
  /\ int_validator (VStr "128.5") = inl "int_parsing"
  /\ int_validator (VStr "12a") = inl "int_parsing"
  /\ int_validator (VStr "") = inl "int_parsing"
  /\ int_validator (VFloat (300 # 1)) = inr 300
  /\ int_validator (VFloat (257 # 2)) = inl "int_from_float"
  /\ int_validator (VFloat (inject_Z (10 ^ 19))) = inl "int_parsing_size"
  /\ int_validator VNone = inl "int_type".
Proof. repeat split; reflexivity. Qed.

(** ** Dictionaries *)

Lemma dict_get_set_eq (d : dict) (k : string) (v : value) :
  dict_get k (dict_set d k v) = Some v.
Proof.
  induction d as [|[k' v'] rest IH]; simpl.
  - now rewrite String.eqb_refl.
  - destruct (String.eqb k' k) eqn:E; simpl; now rewrite E.
Qed.

Lemma dict_get_set_ne (d : dict) (k k' : string) (v : value) :
  k <> k' -> dict_get k' (dict_set d k v) = dict_get k' d.
Proof.
  intros Hne. induction d as [|[k0 v0] rest IH]; simpl.
  - destruct (String.eqb_spec k k'); [contradiction|reflexivity].
  - destruct (String.eqb_spec k0 k) as [->|Hk]; simpl.
    + destruct (String.eqb_spec k k'); [contradiction|reflexivity].
    + now rewrite IH.
Qed.

(* ===================================================================== *)
(** * The introspection route *)
(* ===================================================================== *)

(** C4. GET /schema answers with exactly one entry for each of the five
    kinds that [main.py] imports, named by the lower-cased class name, in
    the order channel, message, paymentintent, project, device; the fields
    of each entry are the declared field names of the kind, in declaration
    order (project: title, bpm, key, tracks).  Neither User nor Product is
    among the entries. *)
Theorem schema_lists_the_exposed_kinds :
  let schema :=
    [ ("channel", ["name"; "topic"]);
      ("message", ["channel_id"; "sender"; "text"; "voice_url"]);
      ("paymentintent", ["user_email"; "plan"; "amount_cents"; "currency"; "status"]);
      ("project", ["title"; "bpm"; "key"; "tracks"]);
      ("device", ["name"; "manufacturer"; "connection"]) ] in
  let exposed := [Channel; Message; PaymentIntent; Project; Device] in
  GET_schema =
    Response200
      (VList (List.map (fun '(name, fields) =>
                          VDict [ ("name", VStr name);
                                  ("fields", VList (List.map VStr fields)) ])
                       schema))
  /\ List.map fst schema = List.map (fun cls => lower (__name__ cls)) exposed
  /\ List.map snd schema = List.map (fun cls => List.map fst (model_fields cls)) exposed
  /\ NoDup (List.map fst schema)
  /\ Forall (fun cls_name =>
               ~ In cls_name (List.map fst schema) /\
               ~ In (lower cls_name) (List.map fst schema))
            not_imported.
Proof.
  cbv zeta. split; [reflexivity|]. split; [reflexivity|]. split; [reflexivity|].
  split.
  - simpl. compute_done.
  - unfold not_imported. repeat (apply Forall_cons; split); try apply Forall_nil;
      simpl; intuition discriminate.
Qed.

(* ===================================================================== *)
(** * The diagnostic probe *)
(* ===================================================================== *)

(** C9. GET /test never raises: whatever the state of the store and the
    environment, the function returns a report and the route answers 200
    with it.  When the store is not configured the report says
    "Available but not initialized", keeps the connection status
    "Not Connected" and its collections are the empty list.  The two
    configuration entries are always one of the two marks "Set" and
    "Not Set", and the whole report depends on the environment only through
    whether each variable is set. *)
Theorem test_database_never_raises {DB : Type} `{!database DB}
    (getenv : string -> option string) (db : DB) :
  exists report : dict,
    test_database getenv db = Return (VDict report)
    /\ GET_test getenv db = Response200 (VDict report)
    /\ (db_is_None db = true ->
        dict_get "database" report = Some (VStr "⚠️  Available but not initialized")
        /\ dict_get "connection_status" report = Some (VStr "Not Connected")
        /\ dict_get "collections" report = Some (VList []))
    /\ dict_get "database_url" report =
         Some (VStr (if is_set (getenv "DATABASE_URL") then "✅ Set" else "❌ Not Set"))
    /\ dict_get "database_name" report =
         Some (VStr (if is_set (getenv "DATABASE_NAME") then "✅ Set" else "❌ Not Set"))
    /\ (forall getenv' : string -> option string,
          is_set (getenv' "DATABASE_URL") = is_set (getenv "DATABASE_URL") ->
          is_set (getenv' "DATABASE_NAME") = is_set (getenv "DATABASE_NAME") ->
          test_database getenv' db = test_database getenv db).
Proof.
  unfold GET_test, test_database, test_database_try.
  destruct (db_is_None db) eqn:Hnone; simpl.
  - eexists. repeat split; try reflexivity.
    intros getenv' Hurl Hname. now rewrite Hurl, Hname.
  - destruct (db_name db) as [|v|msg]; simpl;
      try destruct (db_list_collection_names db) as [e|names]; simpl;
      eexists; (repeat split; try reflexivity; try discriminate;
                intros getenv' Hurl Hname; now rewrite Hurl, Hname).
Qed.

(* ===================================================================== *)
(** * Listing *)
(* ===================================================================== *)

(** Every record that leaves [stringify_ids] has a text under ["_id"]. *)
Lemma stringify_ids_text (repr : value -> string) (docs : list dict) :
  Forall (fun d => exists s, dict_get "_id" d = Some (VStr s))
         (stringify_ids repr docs).
Proof.
  unfold stringify_ids.
  induction docs as [|d rest IH]; simpl; constructor; [|exact IH].
  eexists. apply dict_get_set_eq.
Qed.

(** C8. Whenever one of the four list routes answers with records, the
    answer is a list of records each of which carries a text under ["_id"]:
    the identifier object the store keeps there has been replaced by what
    [str] makes of it. *)
Theorem listed_ids_are_text {DB : Type} `{!database DB} (repr : value -> string)
    (route : QueryParams -> DB -> Response) (query : QueryParams) (db : DB)
    (content : value) :
  In route [GET_channels repr; GET_messages repr; GET_projects repr; GET_devices repr] ->
  route query db = Response200 content ->
  exists docs : list dict,
    content = documents docs
    /\ Forall (fun d => exists s, dict_get "_id" d = Some (VStr s)) docs.
Proof.
  intros Hroute Hresp.
  assert (Hlist : forall kind filt limit,
             respond (docs ← raised (get_documents kind filt limit db);
                      mret (documents (stringify_ids repr docs))) = Response200 content ->
             exists docs : list dict,
               content = documents docs
               /\ Forall (fun d => exists s, dict_get "_id" d = Some (VStr s)) docs).
  { intros kind filt limit H.
    destruct (get_documents kind filt limit db) as [e|docs]; simpl in H; [discriminate|].
    injection H as <-. eexists. split; [reflexivity|apply stringify_ids_text]. }
  simpl in Hroute.
  destruct Hroute as [<-|[<-|[<-|[<-|[]]]]].
  - unfold GET_channels, list_channels in Hresp.
    destruct (validate_query _ _ query); [discriminate|]. exact (Hlist _ _ _ Hresp).
  - unfold GET_messages, list_messages in Hresp.
    destruct (validate_query "channel_id" _ query);
      destruct (validate_query "limit" _ query); try discriminate.
    exact (Hlist _ _ _ Hresp).
  - unfold GET_projects, list_projects in Hresp.
    destruct (validate_query _ _ query); [discriminate|]. exact (Hlist _ _ _ Hresp).
  - unfold GET_devices, list_devices in Hresp.
    destruct (validate_query _ _ query); [discriminate|]. exact (Hlist _ _ _ Hresp).
Qed.

(** The limit of a list route, given as the numeral of [n]. *)
Lemma validate_limit (dflt : value) (bound n : Z) (query : QueryParams) :
  query "limit" = Some (str_int n) ->
  1 <= bound ->
  validate_query "limit" (Query dflt (Some 1) (Some bound)) query =
    if too_long (str_int n) then
      inl [mkError "int_parsing_size" [LKey "query"; LKey "limit"]]
    else if n <=? bound then
      if 1 <=? n then inr (VInt n)
      else inl [mkError "greater_than_equal" [LKey "query"; LKey "limit"]]
    else inl [mkError "less_than_equal" [LKey "query"; LKey "limit"]].
Proof.
  intros Hq Hb. unfold validate_query, validate_field, Query. rewrite Hq.
  cbn [option_map annotation validate_ann int_validator].
  rewrite str_as_int_str_int. destruct (too_long (str_int n)); [reflexivity|].
  unfold check_bounds. simpl.
  destruct (Z.leb_spec n bound), (Z.leb_spec 1 n); simpl; try reflexivity; lia.
Qed.

(** The channel filter of GET /messages always validates: a text stays as
    it is, an absent parameter is [None]. *)
Lemma validate_channel_id (query : QueryParams) :
  validate_query "channel_id" (mkField (TOptional TStr) (Default VNone) None None) query =
    inr (match query "channel_id" with Some s => VStr s | None => VNone end).
Proof.
  unfold validate_query, validate_field. now destruct (query "channel_id").
Qed.

(** C5. A list route reads its limit at the boundary.  For the numeral of
    any integer [n]: when [n <= 0] or [n] exceeds the bound of the route
    (100 for /channels and /projects, 200 for /messages and /devices) the
    answer is a 422 that points at the query parameter [limit], whatever
    the store; when [n] lies within [1, bound] the handler runs with [n]
    itself as the limit. *)
Theorem limit_is_checked_at_the_boundary {DB : Type} `{!database DB}
    (repr : value -> string) (query : QueryParams) (db : DB) (n : Z) :
  query "limit" = Some (str_int n) ->
  ((n <= 0 \/ 100 < n) ->
     rejects_at [LKey "query"; LKey "limit"] (GET_channels repr query db)
     /\ rejects_at [LKey "query"; LKey "limit"] (GET_projects repr query db))
  /\ ((n <= 0 \/ 200 < n) ->
     rejects_at [LKey "query"; LKey "limit"] (GET_messages repr query db)
     /\ rejects_at [LKey "query"; LKey "limit"] (GET_devices repr query db))
  /\ (1 <= n <= 100 ->
     GET_channels repr query db = respond (list_channels repr (VInt n) db)
     /\ GET_projects repr query db = respond (list_projects repr (VInt n) db))
  /\ (1 <= n <= 200 ->
     GET_messages repr query db =
       respond (list_messages repr
                  (match query "channel_id" with Some s => VStr s | None => VNone end)
                  (VInt n) db)
     /\ GET_devices repr query db = respond (list_devices repr (VInt n) db)).
Proof.
  intros Hq.
  assert (H100 : forall dflt, validate_query "limit" (Query dflt (Some 1) (Some 100)) query = _)
    by (intros dflt; apply (validate_limit dflt 100 n query Hq); lia).
  assert (H200 : forall dflt, validate_query "limit" (Query dflt (Some 1) (Some 200)) query = _)
    by (intros dflt; apply (validate_limit dflt 200 n query Hq); lia).
  unfold GET_channels, GET_projects, GET_messages, GET_devices, rejects_at.
  rewrite validate_channel_id, !H100, !H200.
  assert (Hshort : 1 <= n <= 200 -> too_long (str_int n) = false)
    by (intros Hn; apply short_numeral_not_too_long; lia).
  repeat split.
  - destruct (too_long (str_int n)), (Z.leb_spec n 100), (Z.leb_spec 1 n); try lia;
      eexists; (split; [reflexivity|]); eexists; (split; [left; reflexivity|reflexivity]).
  - destruct (too_long (str_int n)), (Z.leb_spec n 100), (Z.leb_spec 1 n); try lia;
      eexists; (split; [reflexivity|]); eexists; (split; [left; reflexivity|reflexivity]).
  - destruct (too_long (str_int n)), (Z.leb_spec n 200), (Z.leb_spec 1 n); try lia;
      eexists; (split; [reflexivity|]); eexists; (split; [left; reflexivity|reflexivity]).
  - destruct (too_long (str_int n)), (Z.leb_spec n 200), (Z.leb_spec 1 n); try lia;
      eexists; (split; [reflexivity|]); eexists; (split; [left; reflexivity|reflexivity]).
  - rewrite Hshort by lia.
    destruct (Z.leb_spec n 100), (Z.leb_spec 1 n); try lia; reflexivity.
  - rewrite Hshort by lia.
    destruct (Z.leb_spec n 100), (Z.leb_spec 1 n); try lia; reflexivity.
  - rewrite Hshort by lia.
    destruct (Z.leb_spec n 200), (Z.leb_spec 1 n); try lia; reflexivity.
  - rewrite Hshort by lia.
    destruct (Z.leb_spec n 200), (Z.leb_spec 1 n); try lia; reflexivity.
Qed.

(** C10. GET /messages with [channel_id] given as the empty text filters
    nothing: the handler passes the empty filter to the store, as it does
    when [channel_id] is omitted, so the two requests (with the same limit)
    get the same answer. *)
Theorem empty_channel_id_filters_nothing {DB : Type} `{!database DB}
    (repr : value -> string) (given omitted : QueryParams) (db : DB) :
  given "channel_id" = Some "" ->
  omitted "channel_id" = None ->
  given "limit" = omitted "limit" ->
  GET_messages repr given db = GET_messages repr omitted db
  /\ forall limit : value,
       list_messages repr (VStr "") limit db = list_messages repr VNone limit db
       /\ list_messages repr (VStr "") limit db =
            (docs ← raised (get_documents "message" [] limit db);
             mret (documents (stringify_ids repr docs))).
Proof.
  intros Hgiven Homitted Hlimit. split.
  - unfold GET_messages. rewrite !validate_channel_id, Hgiven, Homitted.
    unfold validate_query. rewrite Hlimit.
    destruct (validate_field "limit" _ _); reflexivity.
  - intros limit. split; reflexivity.
Qed.

(** With two messages of different channels in the store, the empty
    [channel_id] returns both. *)
Lemma empty_channel_id_filters_nothing_example :
  (examples.params [("channel_id", "")] "channel_id" = Some ""
   /\ examples.no_params "channel_id" = None
   /\ examples.params [("channel_id", "")] "limit" = examples.no_params "limit")
  /\ GET_messages examples.any_repr (examples.params [("channel_id", "")]) examples.studio
     = GET_messages examples.any_repr examples.no_params examples.studio
  /\ GET_messages examples.any_repr (examples.params [("channel_id", "")]) examples.studio
     = Response200
         (documents
            [ [("channel_id", VStr "0"); ("sender", VStr "ada"); ("text", VStr "hi");
               ("voice_url", VNone); ("_id", VStr "1")];
              [("channel_id", VStr ""); ("sender", VStr "bob"); ("text", VNone);
               ("voice_url", VNone); ("_id", VStr "2")] ]).
Proof.
  split; [repeat split|]. split; [|reflexivity].
  apply (empty_channel_id_filters_nothing examples.any_repr
           (examples.params [("channel_id", "")]) examples.no_params examples.studio);
    reflexivity.
Defined.

Lemma listed_ids_are_text_example :
  (In (GET_channels examples.any_repr)
      [GET_channels examples.any_repr; GET_messages examples.any_repr;
       GET_projects examples.any_repr; GET_devices examples.any_repr]
   /\ GET_channels examples.any_repr examples.no_params examples.studio
      = Response200 (documents [ [("name", VStr "lobby"); ("topic", VNone);
                                  ("_id", VStr "0")] ]))
  /\ exists docs : list dict,
       documents [ [("name", VStr "lobby"); ("topic", VNone); ("_id", VStr "0")] ]
       = documents docs
       /\ Forall (fun d => exists s, dict_get "_id" d = Some (VStr s)) docs.
Proof.
  split; [split; [left; reflexivity|reflexivity]|].
  apply (listed_ids_are_text examples.any_repr (GET_channels examples.any_repr)
           examples.no_params examples.studio);
    [left; reflexivity|reflexivity].
Defined.

Lemma limit_is_checked_at_the_boundary_example :
  examples.params [("limit", "500")] "limit" = Some (str_int 500)
  /\ rejects_at [LKey "query"; LKey "limit"]
       (GET_messages examples.any_repr (examples.params [("limit", "500")])
          examples.unconfigured)
  /\ examples.params [("limit", "1")] "limit" = Some (str_int 1)
  /\ GET_messages examples.any_repr (examples.params [("limit", "1")]) examples.studio
     = respond (list_messages examples.any_repr VNone (VInt 1) examples.studio).
Proof.
  split; [reflexivity|]. split.
  - apply (limit_is_checked_at_the_boundary examples.any_repr
             (examples.params [("limit", "500")]) examples.unconfigured 500);
      [reflexivity|lia].
  - split; [reflexivity|].
    apply (limit_is_checked_at_the_boundary examples.any_repr
             (examples.params [("limit", "1")]) examples.studio 1);
      [reflexivity|lia].
Defined.

(* ===================================================================== *)
(** * Validation of request bodies *)
(* ===================================================================== *)

(** ** How the outcome of a model follows from its fields *)

Lemma model_validate_dict (cls : ModelClass) (entries : dict) :
  model_validate cls (VDict entries) =
    match fst (validate_fields (model_fields cls) entries) with
    | [] => inr (mkInstance cls (snd (validate_fields (model_fields cls) entries)))
    | errors => inl errors
    end.
Proof.
  unfold model_validate.
  destruct (validate_fields (model_fields cls) entries) as [errors values].
  now destruct errors.
Qed.

(** The errors of a model are the errors of its fields. *)
Lemma validate_fields_errors (fields : list (string * FieldInfo)) (input : dict)
    (e : ErrorDetails) :
  In e (fst (validate_fields fields input)) <->
  exists name info errors,
    In (name, info) fields
    /\ validate_field name info (dict_get name input) = inl errors
    /\ In e errors.
Proof.
  induction fields as [|[name info] rest IH]; simpl.
  - split; [intros []|intros (? & ? & ? & [] & _)].
  - destruct (validate_fields rest input) as [errors values] eqn:Hrest.
    simpl in IH.
    destruct (validate_field name info (dict_get name input)) as [es|v] eqn:Hfield;
      simpl.
    + rewrite in_app_iff, IH. split.
      * intros [Hin|(name' & info' & errors' & Hmem & Hval & Hin)].
        -- exists name, info, es. auto.
        -- exists name', info', errors'. auto.
      * intros (name' & info' & errors' & [Heq|Hmem] & Hval & Hin).
        -- injection Heq as <- <-. rewrite Hfield in Hval.
           injection Hval as <-. now left.
        -- right. exists name', info', errors'. auto.
    + rewrite IH. split.
      * intros (name' & info' & errors' & Hmem & Hval & Hin).
        exists name', info', errors'. auto.
      * intros (name' & info' & errors' & [Heq|Hmem] & Hval & Hin).
        -- injection Heq as <- <-. rewrite Hfield in Hval. discriminate.
        -- exists name', info', errors'. auto.
Qed.

(** Every error of a field is located under the name of the field. *)
Lemma validate_field_located (name : string) (info : FieldInfo)
    (input : option value) (errors : list ErrorDetails) (e : ErrorDetails) :
  validate_field name info input = inl errors ->
  In e errors ->
  exists rest, loc e = LKey name :: rest.
Proof.
  unfold validate_field. intros Hval Hin.
  assert (Hmap : forall es, In e (List.map (prefix_loc (LKey name)) es) ->
                            exists rest, loc e = LKey name :: rest).
  { intros es H. apply in_map_iff in H as (e0 & <- & _). now eexists. }
  destruct input as [v|].
  - destruct (validate_ann (annotation info) v) as [es|v'].
    + injection Hval as <-. now apply (Hmap es).
    + destruct (check_bounds info v') as [|e1 es] eqn:Hb; [discriminate|].
      injection Hval as <-. now apply (Hmap (e1 :: es)).
  - destruct (default info); try discriminate.
    injection Hval as <-. destruct Hin as [<-|[]]. now eexists.
Qed.

(** An int field with both bounds: what it accepts and what it answers. *)
Lemma validate_int_field (name : string) (dflt : FieldDefault) (lo hi : option Z)
    (v : value) :
  validate_field name (mkField TInt dflt lo hi) (Some v) =
    match int_validator v with
    | inl t => inl [mkError t [LKey name]]
    | inr n =>
        match check_bounds (mkField TInt dflt lo hi) (VInt n) with
        | [] => inr (VInt n)
        | errors => inl (List.map (prefix_loc (LKey name)) errors)
        end
    end.
Proof.
  unfold validate_field. simpl. now destruct (int_validator v).
Qed.


(** Validation looks at the input only through the fields it validates. *)
Lemma validate_fields_ext (fields : list (string * FieldInfo)) (d1 d2 : dict) :
  (forall name info, In (name, info) fields ->
     validate_field name info (dict_get name d1) =
     validate_field name info (dict_get name d2)) ->
  validate_fields fields d1 = validate_fields fields d2.
Proof.
  induction fields as [|[name info] rest IH]; simpl; intros H; [reflexivity|].
  rewrite IH by (intros; apply H; now right).
  now rewrite (H name info) by now left.
Qed.


(** ** Numeric strings *)




(** A numeral of more than 4300 characters is not read at all.  As a
    [bpm], the numeral of 10 ^ 4300 (4301 digits) is refused for its size,
    where the integer itself is refused for its value: the two requests
    are not answered alike. *)
Lemma oversized_numeral_is_refused :
  let n := 10 ^ 4300 in
  (String.length (str_int n) = 4301)%nat
  /\ validate_body Project (VDict [("title", VStr "Demo"); ("bpm", VStr (str_int n))])
     = inl [mkError "int_parsing_size" [LKey "body"; LKey "bpm"]]
  /\ validate_body Project (VDict [("title", VStr "Demo"); ("bpm", VInt n)])
     = inl [mkError "less_than_equal" [LKey "body"; LKey "bpm"]].
Proof. vm_compute. repeat split; reflexivity. Qed.

(** ** The name of a channel *)

(** A channel whose name is the empty text is accepted and stored. *)
Lemma empty_channel_name_is_accepted :
  validate_body Channel (VDict [("name", VStr "")])
  = inr (mkInstance Channel [("name", VStr ""); ("topic", VNone)])
  /\ fst (POST_channels (VDict [("name", VStr "")]) examples.studio)
     = Response200 (VDict [("id", VStr "3")])
  /\ option_map (database_model.records "channel")
       (snd (POST_channels (VDict [("name", VStr "")]) examples.studio))
     = Some [ [("name", VStr "lobby"); ("topic", VNone); ("_id", VObjectId "0")];
              [("name", VStr ""); ("topic", VNone); ("_id", VObjectId "3")] ].
Proof. repeat split; vm_compute; reflexivity. Qed.

(** C3, as the code has it.  A channel payload is accepted exactly when it
    is an object whose [name] is present and is text and whose [topic] is
    absent, null or text.  Any text will do as a name, the empty text
    included: the validated channel carries the name as given. *)
Theorem channel_name_is_any_text (body : value) :
  ((exists obj, validate_body Channel body = inr obj) <->
   (exists entries name,
      body = VDict entries
      /\ dict_get "name" entries = Some (VStr name)
      /\ (dict_get "topic" entries = None
          \/ dict_get "topic" entries = Some VNone
          \/ exists topic, dict_get "topic" entries = Some (VStr topic))))
  /\ (forall entries name obj,
        body = VDict entries ->
        dict_get "name" entries = Some (VStr name) ->
        validate_body Channel body = inr obj ->
        dict_get "name" (model_dump obj) = Some (VStr name)).
Proof.
  split; [split|].
  - intros [obj H]. destruct body; try discriminate.
    exists entries. unfold validate_body, model_validate in H. simpl in H.
    destruct (dict_get "name" entries) as [[]|];
      destruct (dict_get "topic" entries) as [[]|];
      simpl in H; try discriminate; eauto 10.
  - intros (entries & name & -> & Hname & Htopic).
    unfold validate_body, model_validate. simpl. rewrite Hname.
    destruct Htopic as [->|[->|[topic ->]]]; simpl; eauto.
  - intros entries name obj -> Hname H.
    unfold validate_body, model_validate in H. simpl in H. rewrite Hname in H.
    destruct (dict_get "topic" entries) as [[]|];
      simpl in H; try discriminate; injection H as <-; reflexivity.
Qed.

(** ** The tempo of a project *)

(** What the [bpm] field answers to a supplied input. *)
Lemma bpm_field (v : value) :
  validate_field "bpm" (mkField TInt (Default (VInt 120)) (Some 40) (Some 300)) (Some v) =
    match int_validator v with
    | inl t => inl [mkError t [LKey "bpm"]]
    | inr n =>
        if n <=? 300 then
          if 40 <=? n then inr (VInt n)
          else inl [mkError "greater_than_equal" [LKey "bpm"]]
        else
          if 40 <=? n then inl [mkError "less_than_equal" [LKey "bpm"]]
          else inl [mkError "less_than_equal" [LKey "bpm"];
                    mkError "greater_than_equal" [LKey "bpm"]]
    end.
Proof.
  rewrite validate_int_field. destruct (int_validator v) as [t|n]; [reflexivity|].
  unfold check_bounds. cbn [le ge].
  destruct (n <=? 300), (40 <=? n); reflexivity.
Qed.


Lemma bpm_field_errors (input : option value) (errors : list ErrorDetails) :
  validate_field "bpm" (mkField TInt (Default (VInt 120)) (Some 40) (Some 300)) input
  = inl errors ->
  exists e, In e errors /\ loc e = [LKey "bpm"].
Proof.
  destruct input as [v|]; [|discriminate].
  rewrite bpm_field. destruct (int_validator v) as [t|n].
  - intros [= <-]. eexists. split; [left; reflexivity|reflexivity].
  - destruct (n <=? 300), (40 <=? n); intros [= <-];
      eexists; (split; [left; reflexivity|reflexivity]).
Qed.


(** What an accepted project carries as its [bpm]. *)
Lemma accepted_project_bpm (entries : dict) (obj : BaseModel) :
  validate_body Project (VDict entries) = inr obj ->
  exists n,
    dict_get "bpm" (model_dump obj) = Some (VInt n)
    /\ 40 <= n <= 300
    /\ (dict_get "bpm" entries = None -> n = 120)
    /\ (forall v, dict_get "bpm" entries = Some v -> int_validator v = inr n).
Proof.
  intros H. unfold validate_body, model_validate in H.
  cbn [model_fields Project validate_fields] in H.
  destruct (validate_field "bpm" _ (dict_get "bpm" entries)) as [e2|v2] eqn:Hbpm.
  - exfalso. destruct (bpm_field_errors _ _ Hbpm) as (e & Hin & _).
    destruct e2 as [|e2 es2]; [destruct Hin|].
    destruct (validate_field "tracks" _ _) as [e4|v4];
      destruct (validate_field "key" _ _) as [e3|v3];
      destruct (validate_field "title" _ _) as [[|e1 es1]|v1];
      simpl in H; discriminate.
  - assert (Hv2 : exists n, v2 = VInt n /\ 40 <= n <= 300
                     /\ (dict_get "bpm" entries = None -> n = 120)
                     /\ (forall v, dict_get "bpm" entries = Some v ->
                                   int_validator v = inr n)).
    { destruct (dict_get "bpm" entries) as [v|].
      - rewrite bpm_field in Hbpm.
        destruct (int_validator v) as [t|n] eqn:Hint; [discriminate|].
        destruct (Z.leb_spec n 300), (Z.leb_spec 40 n); try discriminate.
        injection Hbpm as <-. exists n.
        repeat split; try lia; [discriminate|now intros v' [= <-]].
      - injection Hbpm as <-. exists 120.
        repeat split; try lia. discriminate. }
    destruct Hv2 as (n & -> & Hn & Hdefault & Hread).
    exists n. split; [|auto].
    destruct (validate_field "tracks" _ _) as [[|e4 es4]|v4];
      destruct (validate_field "key" _ _) as [[|e3 es3]|v3];
      destruct (validate_field "title" _ _) as [[|e1 es1]|v1];
      simpl in H; try discriminate; injection H as <-; reflexivity.
Qed.






(** ** Accepted models *)

(** A failing validation always has an error to show. *)
Lemma validate_ann_errors_nonempty (a : ann) (v : value) : validate_ann a v <> inl [].
Proof.
  revert v. induction a as [| |a IH|a IH]; intros v; simpl.
  - destruct (str_validator v); discriminate.
  - destruct (int_validator v); discriminate.
  - destruct v; first [discriminate|apply IH].
  - destruct v; try discriminate.
    destruct (validate_items (validate_ann a) 0 items) as [[|e es] values];
      discriminate.
Qed.

Lemma validate_field_errors_nonempty (name : string) (info : FieldInfo)
    (input : option value) :
  validate_field name info input <> inl [].
Proof.
  unfold validate_field. destruct input as [v|].
  - destruct (validate_ann (annotation info) v) as [[|e es]|v'] eqn:Hann.
    + now apply validate_ann_errors_nonempty in Hann.
    + discriminate.
    + destruct (check_bounds info v'); discriminate.
  - destruct (default info); discriminate.
Qed.

(** When no field fails, the instance holds one validated value per field,
    in declaration order. *)
Lemma validate_fields_accepted (fields : list (string * FieldInfo)) (input : dict) :
  fst (validate_fields fields input) = [] ->
  Forall2 (fun field entry =>
             fst entry = fst field
             /\ validate_field (fst field) (snd field) (dict_get (fst field) input)
                = inr (snd entry))
          fields (snd (validate_fields fields input)).
Proof.
  induction fields as [|[name info] rest IH]; simpl; intros H; [constructor|].
  destruct (validate_fields rest input) as [errors values]. simpl in IH.
  destruct (validate_field name info (dict_get name input)) as [[|e es]|v] eqn:Hval;
    simpl in *.
  - now apply validate_field_errors_nonempty in Hval.
  - discriminate.
  - constructor; [split; [reflexivity|exact Hval]|now apply IH].
Qed.

(** A text field accepts texts only, and keeps them as they are. *)
Lemma validate_str_field (name : string) (dflt : FieldDefault) (v v' : value) :
  validate_field name (mkField TStr dflt None None) (Some v) = inr v' ->
  exists s, v = VStr s /\ v' = VStr s.
Proof.
  unfold validate_field. simpl. destruct v; simpl; try discriminate.
  intros [= <-]. eauto.
Qed.

(** The shape of an accepted payment request. *)
Lemma accepted_payment_request (body : value) (data : BaseModel) :
  validate_body CreatePaymentRequest body = inr data ->
  exists entries email plan amount n currency,
    body = VDict entries
    /\ dict_get "user_email" entries = Some (VStr email)
    /\ dict_get "plan" entries = Some (VStr plan)
    /\ dict_get "amount_cents" entries = Some amount
    /\ int_validator amount = inr n
    /\ (dict_get "currency" entries = Some (VStr currency)
        \/ dict_get "currency" entries = None /\ currency = "USD")
    /\ data = mkInstance CreatePaymentRequest
                [ ("user_email", VStr email); ("plan", VStr plan);
                  ("amount_cents", VInt n); ("currency", VStr currency) ].
Proof.
  unfold validate_body. destruct body; try discriminate.
  rewrite model_validate_dict.
  pose proof (validate_fields_accepted (model_fields CreatePaymentRequest) entries) as HE.
  destruct (validate_fields (model_fields CreatePaymentRequest) entries)
    as [errors values].
  simpl fst in *. simpl snd in *.
  destruct errors as [|e es]; [|discriminate].
  intros [= <-]. specialize (HE eq_refl).
  destruct values as [|[k1 v1] [|[k2 v2] [|[k3 v3] [|[k4 v4] [|? ?]]]]];
    simpl in HE; inversion HE as [|? ? ? ? [H1k H1] HE1]; subst;
    inversion HE1 as [|? ? ? ? [H2k H2] HE2]; subst;
    inversion HE2 as [|? ? ? ? [H3k H3] HE3]; subst;
    inversion HE3 as [|? ? ? ? [H4k H4] HE4]; subst;
    inversion HE4; subst.
  clear HE HE1 HE2 HE3 HE4.
  simpl in *. subst.
  exists entries.
  destruct (dict_get "user_email" entries) as [x1|]; [|discriminate].
  apply validate_str_field in H1 as (email & -> & ->).
  destruct (dict_get "plan" entries) as [x2|]; [|discriminate].
  apply validate_str_field in H2 as (plan & -> & ->).
  destruct (dict_get "amount_cents" entries) as [x3|]; [|discriminate].
  rewrite validate_int_field in H3.
  destruct (int_validator x3) as [t|n] eqn:Hint; [discriminate|].
  simpl in H3. injection H3 as <-.
  destruct (dict_get "currency" entries) as [x4|].
  - apply validate_str_field in H4 as (currency & -> & ->).
    exists email, plan, x3, n, currency. repeat split; auto.
  - injection H4 as <-.
    exists email, plan, x3, n, "USD"%string. repeat split; auto.
Qed.

(* ===================================================================== *)
(** * Payment intents *)
(* ===================================================================== *)

(** The handler on an accepted request: the intent is built from the four
    attributes of the request and the status "created", and its amount is
    checked against the bound of [PaymentIntent] at that point. *)
Lemma create_payment_intent_accepted {DB : Type} `{!database DB}
    (email plan currency : string) (n : Z) (db : DB) :
  create_payment_intent
    (mkInstance CreatePaymentRequest
       [ ("user_email", VStr email); ("plan", VStr plan);
         ("amount_cents", VInt n); ("currency", VStr currency) ]) db =
  if 0 <=? n then
    let (r, db') :=
      create_document "paymentintent"
        (mkInstance PaymentIntent
           [ ("user_email", VStr email); ("plan", VStr plan);
             ("amount_cents", VInt n); ("currency", VStr currency);
             ("status", VStr "created") ]) db in
    (_id ← raised r;
     mret (VDict [("id", VStr _id); ("status", VStr "created")]), db')
  else
    (Raise (ValidationError "PaymentIntent"
              [mkError "greater_than_equal" [LKey "amount_cents"]]), db).
Proof.
  unfold create_payment_intent, construct, model_validate. simpl.
  unfold check_bounds. simpl. now destruct (0 <=? n).
Qed.

(** C1. What the code does with a negative amount.  The request model of
    POST /payments/intent puts no bound on [amount_cents], so a payload
    that is otherwise valid passes request validation; the bound of
    [PaymentIntent] then fails inside the handler, the exception escapes,
    and the answer is 500 without detail, not a 422 with field-level
    detail.  In every case the store is left as it was. *)
Theorem negative_amount_is_a_server_error {DB : Type} `{!database DB}
    (entries : dict) (n : Z) (db : DB) :
  dict_get "amount_cents" entries = Some (VInt n) ->
  n < 0 ->
  snd (POST_payments_intent (VDict entries) db) = db
  /\ (forall data,
        validate_body CreatePaymentRequest (VDict entries) = inr data ->
        fst (POST_payments_intent (VDict entries) db) = Response500).
Proof.
  intros Hamount Hneg. unfold POST_payments_intent, post.
  destruct (validate_body CreatePaymentRequest (VDict entries)) as [errors|data] eqn:Hbody.
  - split; [reflexivity|]. intros data [=].
  - apply accepted_payment_request in Hbody
      as (entries' & email & plan & amount & n' & currency
          & [= <-] & _ & _ & Hamount' & Hread & _ & ->).
    rewrite Hamount in Hamount'. injection Hamount' as <-.
    injection Hread as <-.
    rewrite create_payment_intent_accepted.
    destruct (Z.leb_spec 0 n); [lia|]. split; [reflexivity|]. now intros.
Qed.

Lemma negative_amount_is_a_server_error_example :
  (dict_get "amount_cents"
     [ ("user_email", VStr "a@b.com"); ("plan", VStr "pro");
       ("amount_cents", VInt (-1)) ] = Some (VInt (-1))
   /\ -1 < 0)
  /\ snd (POST_payments_intent
            (VDict [ ("user_email", VStr "a@b.com"); ("plan", VStr "pro");
                     ("amount_cents", VInt (-1)) ]) examples.studio)
     = examples.studio
  /\ fst (POST_payments_intent
            (VDict [ ("user_email", VStr "a@b.com"); ("plan", VStr "pro");
                     ("amount_cents", VInt (-1)) ]) examples.studio)
     = Response500.
Proof.
  split; [split; [reflexivity|lia]|].
  destruct (negative_amount_is_a_server_error
              [ ("user_email", VStr "a@b.com"); ("plan", VStr "pro");
                ("amount_cents", VInt (-1)) ] (-1) examples.studio
              eq_refl ltac:(lia)) as [Hstore Hanswer].
  split; [exact Hstore|].
  exact (Hanswer _ eq_refl).
Defined.



(* ===================================================================== *)
(** * Further properties of validation *)
(* ===================================================================== *)

Lemma model_validate_ignores_key (cls : ModelClass) (key : string) (v : value)
    (entries : dict) :
  ~ In key (List.map fst (model_fields cls)) ->
  model_validate cls (VDict (dict_set entries key v)) = model_validate cls (VDict entries).
Proof.
  intros Hkey. unfold model_validate.
  rewrite (validate_fields_ext (model_fields cls) (dict_set entries key v) entries);
    [reflexivity|].
  intros name info Hin. rewrite dict_get_set_ne; [reflexivity|].
  intros ->. apply Hkey. apply in_map_iff. now exists (name, info).
Qed.

(** X1. Keys of a payload that the model does not declare are ignored:
    setting such a key, to anything, changes neither the outcome of
    validation nor the validated instance. *)
Theorem undeclared_keys_are_ignored (cls : ModelClass) (key : string) (v : value)
    (entries : dict) :
  ~ In key (List.map fst (model_fields cls)) ->
  model_validate cls (VDict (dict_set entries key v)) = model_validate cls (VDict entries)
  /\ validate_body cls (VDict (dict_set entries key v)) = validate_body cls (VDict entries).
Proof.
  intros Hkey. pose proof (model_validate_ignores_key cls key v entries Hkey) as H.
  split; [exact H|]. unfold validate_body. now rewrite H.
Qed.

Lemma undeclared_keys_are_ignored_example :
  ~ In "colour" (List.map fst (model_fields Project))
  /\ model_validate Project
       (VDict [("title", VStr "Demo"); ("colour", VStr "red")])
     = model_validate Project (VDict [("title", VStr "Demo")]).
Proof.
  assert (Hkey : ~ In "colour" (List.map fst (model_fields Project)))
    by (simpl; intuition discriminate).
  split; [exact Hkey|].
  exact (proj1 (undeclared_keys_are_ignored Project "colour" (VStr "red")
                  [("title", VStr "Demo")] Hkey)).
Defined.


(** X3. An accepted instance belongs to the class it was validated
    against and holds exactly the declared fields, in declaration order,
    each with the value its field validation returned. *)
Theorem accepted_instance_has_the_declared_fields (cls : ModelClass)
    (input : value) (obj : BaseModel) :
  model_validate cls input = inr obj ->
  __class__ obj = cls
  /\ List.map fst (model_dump obj) = List.map fst (model_fields cls)
  /\ exists entries,
       input = VDict entries
       /\ Forall2 (fun field entry =>
                     validate_field (fst field) (snd field)
                       (dict_get (fst field) entries) = inr (snd entry))
                  (model_fields cls) (model_dump obj).
Proof.
  destruct input; try discriminate.
  rewrite model_validate_dict.
  pose proof (validate_fields_accepted (model_fields cls) entries) as HE.
  destruct (validate_fields (model_fields cls) entries) as [errors values].
  simpl fst in *. simpl snd in *.
  destruct errors as [|e es]; [|discriminate].
  intros [= <-]. specialize (HE eq_refl). simpl.
  split; [reflexivity|]. split.
  - clear -HE. induction HE as [|field entry fields values' [Hk _] _ IH]; simpl;
      [reflexivity|]. now rewrite Hk, IH.
  - exists entries. split; [reflexivity|].
    clear -HE. induction HE as [|field entry fields values' [_ Hv] _ IH];
      constructor; assumption.
Qed.

Lemma accepted_instance_has_the_declared_fields_example :
  model_validate Device
    (VDict [("name", VStr "pad"); ("connection", VStr "midi")])
  = inr (mkInstance Device
           [("name", VStr "pad"); ("manufacturer", VNone);
            ("connection", VStr "midi")])
  /\ List.map fst
       [("name", VStr "pad"); ("manufacturer", VNone); ("connection", VStr "midi")]
     = List.map fst (model_fields Device).
Proof.
  split; [reflexivity|].
  exact (proj1 (proj2 (accepted_instance_has_the_declared_fields Device
                         (VDict [("name", VStr "pad"); ("connection", VStr "midi")])
                         (mkInstance Device
                            [("name", VStr "pad"); ("manufacturer", VNone);
                             ("connection", VStr "midi")])
                         eq_refl))).
Defined.

(** X4. No failing field is masked by another: every error of every
    declared field appears, under [body], in the detail of the rejection. *)
Theorem every_failing_field_is_reported (cls : ModelClass) (entries : dict)
    (name : string) (info : FieldInfo) (errors : list ErrorDetails)
    (e : ErrorDetails) :
  In (name, info) (model_fields cls) ->
  validate_field name info (dict_get name entries) = inl errors ->
  In e errors ->
  exists detail,
    validate_body cls (VDict entries) = inl detail
    /\ In (prefix_loc (LKey "body") e) detail.
Proof.
  intros Hfield Hval Hin.
  assert (Hmem : In e (fst (validate_fields (model_fields cls) entries))).
  { apply validate_fields_errors. exists name, info, errors. auto. }
  unfold validate_body. rewrite model_validate_dict.
  destruct (fst (validate_fields (model_fields cls) entries)) as [|e0 es];
    [destruct Hmem|].
  eexists. split; [reflexivity|]. now apply in_map.
Qed.

Lemma every_failing_field_is_reported_example :
  exists detail,
    validate_body Message (VDict [("text", VStr "hi")]) = inl detail
    /\ In (mkError "missing" [LKey "body"; LKey "sender"]) detail.
Proof.
  apply (every_failing_field_is_reported Message [("text", VStr "hi")] "sender"
           (mkField TStr Required None None)
           [mkError "missing" [LKey "sender"]]
           (mkError "missing" [LKey "sender"]));
    [simpl; auto|reflexivity|left; reflexivity].
Defined.

(* ===================================================================== *)
(** * Further properties of the create routes *)
(* ===================================================================== *)

(** A rejection never comes empty. *)
Lemma validate_body_errors_nonempty (cls : ModelClass) (body : value) :
  validate_body cls body <> inl [].
Proof.
  unfold validate_body. destruct body; try (simpl; discriminate).
  rewrite model_validate_dict.
  destruct (fst (validate_fields (model_fields cls) entries)); discriminate.
Qed.

Lemma validate_body_under_body (cls : ModelClass) (body : value)
    (detail : list ErrorDetails) :
  validate_body cls body = inl detail ->
  Forall (fun e => exists rest, loc e = LKey "body" :: rest) detail.
Proof.
  unfold validate_body.
  destruct (model_validate cls body) as [errors|obj]; [|discriminate].
  intros [= <-]. induction errors as [|e es IH]; simpl; constructor; [|exact IH].
  now eexists.
Qed.

(** A route with a body answers 422 only from request validation. *)
Lemma post_422 {DB : Type} (cls : ModelClass)
    (handler : BaseModel -> DB -> result value * DB) (body : value) (db : DB)
    (detail : list ErrorDetails) :
  fst (post cls handler body db) = Response422 detail ->
  validate_body cls body = inl detail /\ snd (post cls handler body db) = db.
Proof.
  unfold post. destruct (validate_body cls body) as [errors|obj].
  - intros [= <-]. now split.
  - destruct (handler obj db) as [[exc|content] db']; discriminate.
Qed.

(** X5. On each of the five routes that take a body, a 422 is given only
    when request validation failed, before anything was stored: the store
    is as it was, the detail is not empty, and every entry of it points
    under [body]. *)
Theorem rejected_body_leaves_the_store {DB : Type} `{!database DB}
    (route : value -> DB -> Response * DB) (body : value) (db : DB)
    (detail : list ErrorDetails) :
  In route [POST_channels; POST_messages; POST_projects; POST_devices;
            POST_payments_intent] ->
  fst (route body db) = Response422 detail ->
  snd (route body db) = db
  /\ detail <> []
  /\ Forall (fun e => exists rest, loc e = LKey "body" :: rest) detail.
Proof.
  intros Hroute H. simpl in Hroute.
  destruct Hroute as [<-|[<-|[<-|[<-|[<-|[]]]]]];
    apply post_422 in H as [Hval Hdb];
    (split; [exact Hdb|]);
    (split; [intros ->; now apply validate_body_errors_nonempty in Hval
            |now apply validate_body_under_body in Hval]).
Qed.

Lemma rejected_body_leaves_the_store_example :
  fst (POST_devices (VDict [("name", VStr "pad")]) examples.studio)
  = Response422 [mkError "missing" [LKey "body"; LKey "connection"]]
  /\ snd (POST_devices (VDict [("name", VStr "pad")]) examples.studio)
     = examples.studio.
Proof.
  split; [reflexivity|].
  apply (rejected_body_leaves_the_store POST_devices (VDict [("name", VStr "pad")])
           examples.studio [mkError "missing" [LKey "body"; LKey "connection"]]);
    [simpl; auto|reflexivity].
Defined.



(** X7. Each create route hands the validated instance to
    [create_document] under its own kind name (channel, message, project,
    device).  The answer is 200 with exactly the identifier that call
    returned, or 500 when it raised; the store is as that call left it. *)
Theorem create_routes_store_under_their_kind {DB : Type} `{!database DB}
    (route : value -> DB -> Response * DB) (cls : ModelClass) (kind : string)
    (body : value) (obj : BaseModel) (db : DB) :
  In (route, cls, kind)
     [ (POST_channels, Channel, "channel"); (POST_messages, Message, "message");
       (POST_projects, Project, "project"); (POST_devices, Device, "device") ] ->
  validate_body cls body = inr obj ->
  route body db =
    (match fst (create_document kind obj db) with
     | inr _id => Response200 (VDict [("id", VStr _id)])
     | inl _ => Response500
     end,
     snd (create_document kind obj db)).
Proof.
  intros Hroute Hbody. simpl in Hroute.
  destruct Hroute as [H|[H|[H|[H|[]]]]]; injection H as <- <- <-;
    unfold POST_channels, POST_messages, POST_projects, POST_devices, post,
           create_channel, create_message, create_project, register_device;
    rewrite Hbody;
    match goal with |- context [create_document ?k obj db] =>
      destruct (create_document k obj db) as [[msg|_id] db'] end;
    reflexivity.
Qed.

Lemma create_routes_store_under_their_kind_example :
  POST_devices (VDict [("name", VStr "pad"); ("connection", VStr "midi")])
    examples.unconfigured
  = (Response500, examples.unconfigured).
Proof.
  exact (create_routes_store_under_their_kind POST_devices Device "device"
           (VDict [("name", VStr "pad"); ("connection", VStr "midi")])
           (mkInstance Device
              [("name", VStr "pad"); ("manufacturer", VNone);
               ("connection", VStr "midi")])
           examples.unconfigured
           ltac:(simpl; auto) eq_refl).
Defined.

(** X8. What POST /payments/intent does with an accepted request, on any
    store.  The request carries two texts, an amount read as an integer
    and a currency ("USD" when none was given).  When the amount is not
    negative, the record handed to [create_document] under the kind
    "paymentintent" holds these four values and the status "created", and
    the answer is 200 with the identifier returned and that status, or 500
    when the call raised.  When the amount is negative the answer is 500
    and [create_document] is not reached. *)
Theorem payment_intent_record {DB : Type} `{!database DB}
    (body : value) (data : BaseModel) (db : DB) :
  validate_body CreatePaymentRequest body = inr data ->
  exists (email plan currency : string) (n : Z),
    model_dump data =
      [ ("user_email", VStr email); ("plan", VStr plan);
        ("amount_cents", VInt n); ("currency", VStr currency) ]
    /\ POST_payments_intent body db =
       if 0 <=? n then
         let stored :=
           create_document "paymentintent"
             (mkInstance PaymentIntent
                [ ("user_email", VStr email); ("plan", VStr plan);
                  ("amount_cents", VInt n); ("currency", VStr currency);
                  ("status", VStr "created") ]) db in
         (match fst stored with
          | inr _id => Response200 (VDict [("id", VStr _id); ("status", VStr "created")])
          | inl _ => Response500
          end, snd stored)
       else (Response500, db).
Proof.
  intros Hbody. pose proof Hbody as Hshape.
  apply accepted_payment_request in Hshape
    as (entries & email & plan & amount & n & currency
        & -> & _ & _ & _ & _ & _ & ->).
  exists email, plan, currency, n. split; [reflexivity|].
  unfold POST_payments_intent, post. rewrite Hbody.
  rewrite create_payment_intent_accepted.
  destruct (0 <=? n); [|reflexivity].
  cbv zeta. destruct (create_document "paymentintent" _ db) as [[msg|_id] db'];
    reflexivity.
Qed.

Lemma payment_intent_record_example :
  exists (email plan currency : string) (n : Z),
    [ ("user_email", VStr "a@b.com"); ("plan", VStr "pro");
      ("amount_cents", VInt 5); ("currency", VStr "EUR") ]
    = [ ("user_email", VStr email); ("plan", VStr plan);
        ("amount_cents", VInt n); ("currency", VStr currency) ]
    /\ POST_payments_intent
         (VDict [ ("user_email", VStr "a@b.com"); ("plan", VStr "pro");
                  ("amount_cents", VStr " 5 "); ("currency", VStr "EUR") ])
         examples.unconfigured =
       if 0 <=? n then
         let stored :=
           create_document "paymentintent"
             (mkInstance PaymentIntent
                [ ("user_email", VStr email); ("plan", VStr plan);
                  ("amount_cents", VInt n); ("currency", VStr currency);
                  ("status", VStr "created") ]) examples.unconfigured in
         (match fst stored with
          | inr _id => Response200 (VDict [("id", VStr _id); ("status", VStr "created")])
          | inl _ => Response500
          end, snd stored)
       else (Response500, examples.unconfigured).
Proof.
  exact (payment_intent_record
           (VDict [ ("user_email", VStr "a@b.com"); ("plan", VStr "pro");
                    ("amount_cents", VStr " 5 "); ("currency", VStr "EUR") ])
           (mkInstance CreatePaymentRequest
              [ ("user_email", VStr "a@b.com"); ("plan", VStr "pro");
                ("amount_cents", VInt 5); ("currency", VStr "EUR") ])
           examples.unconfigured eq_refl).
Defined.

(* ===================================================================== *)
(** * Further properties of the list routes *)
(* ===================================================================== *)

(** The limit of a list route, for any query string. *)
Lemma validate_limit_text (dflt bound : Z) (query : QueryParams) :
  1 <= bound ->
  validate_query "limit" (Query (VInt dflt) (Some 1) (Some bound)) query =
    match query "limit" with
    | None => inr (VInt dflt)
    | Some s =>
        match str_as_int s with
        | inl t => inl [mkError t [LKey "query"; LKey "limit"]]
        | inr n =>
            if n <=? bound then
              if 1 <=? n then inr (VInt n)
              else inl [mkError "greater_than_equal" [LKey "query"; LKey "limit"]]
            else inl [mkError "less_than_equal" [LKey "query"; LKey "limit"]]
        end
    end.
Proof.
  intros Hb. unfold validate_query, Query.
  destruct (query "limit") as [s|]; [|reflexivity].
  cbn [option_map]. rewrite validate_int_field. cbn [int_validator].
  destruct (str_as_int s) as [t|n]; [reflexivity|].
  unfold check_bounds. cbn [le ge].
  destruct (Z.leb_spec n bound), (Z.leb_spec 1 n); simpl; try reflexivity; lia.
Qed.

Lemma list_routes_decide {DB : Type} `{!database DB}
    (repr : value -> string) (query : QueryParams) (db : DB) :
  let decide := fun (dflt bound : Z) (run : value -> Response) =>
    match query "limit" with
    | None => run (VInt dflt)
    | Some s =>
        match str_as_int s with
        | inl t => Response422 [mkError t [LKey "query"; LKey "limit"]]
        | inr n =>
            if n <=? bound then
              if 1 <=? n then run (VInt n)
              else Response422
                     [mkError "greater_than_equal" [LKey "query"; LKey "limit"]]
            else Response422 [mkError "less_than_equal" [LKey "query"; LKey "limit"]]
        end
    end in
  GET_channels repr query db
    = decide 20 100 (fun limit => respond (list_channels repr limit db))
  /\ GET_projects repr query db
     = decide 20 100 (fun limit => respond (list_projects repr limit db))
  /\ GET_devices repr query db
     = decide 50 200 (fun limit => respond (list_devices repr limit db))
  /\ GET_messages repr query db
     = decide 50 200
         (fun limit =>
            respond (list_messages repr
                       (match query "channel_id" with
                        | Some s => VStr s
                        | None => VNone
                        end) limit db)).
Proof.
  cbv zeta. unfold GET_channels, GET_projects, GET_devices, GET_messages.
  rewrite validate_channel_id.
  rewrite (validate_limit_text 20 100 query) by lia.
  rewrite (validate_limit_text 50 200 query) by lia.
  repeat split;
    destruct (query "limit") as [s|]; try reflexivity;
    destruct (str_as_int s) as [t|n]; try reflexivity;
    destruct (n <=? _), (1 <=? n); reflexivity.
Qed.



(** X10. A list route asks the store for the records of its own kind, with
    a limit between 1 and the bound of the route, and a filter that is
    empty except on /messages with a non-empty [channel_id], where it
    matches that channel.  An answer of 200 carries exactly the records
    the store returned, in the same order, after [stringify_ids]; an
    answer of 500 means that the store raised.  A failing store is never
    reported as an empty list. *)
Theorem listing_asks_the_store_within_bounds {DB : Type} `{!database DB}
    (repr : value -> string) (query : QueryParams) (db : DB)
    (route : QueryParams -> DB -> Response) (kind : string) (filt : dict)
    (bound : Z) :
  In (route, kind, filt, bound)
     [ (GET_channels repr, "channel", [], 100);
       (GET_projects repr, "project", [], 100);
       (GET_devices repr, "device", [], 200);
       (GET_messages repr, "message",
        match query "channel_id" with
        | Some s => if String.eqb s "" then [] else [("channel_id", VStr s)]
        | None => []
        end, 200) ] ->
  (forall content, route query db = Response200 content ->
     exists n docs,
       1 <= n <= bound
       /\ get_documents kind filt (VInt n) db = inr docs
       /\ content = documents (stringify_ids repr docs))
  /\ (route query db = Response500 ->
      exists n msg,
        1 <= n <= bound /\ get_documents kind filt (VInt n) db = inl msg).
Proof.
  intros Hroute.
  pose proof (list_routes_decide repr query db) as Hdecide.
  cbv zeta in Hdecide. destruct Hdecide as (Hc & Hp & Hd & Hm).
  assert (Hrun : forall (dflt : Z) (run : value -> Response) (answer : Response),
             1 <= dflt <= bound ->
             (forall detail, answer <> Response422 detail) ->
             match query "limit" with
             | None => run (VInt dflt)
             | Some s =>
                 match str_as_int s with
                 | inl t => Response422 [mkError t [LKey "query"; LKey "limit"]]
                 | inr n =>
                     if n <=? bound then
                       if 1 <=? n then run (VInt n)
                       else Response422
                              [mkError "greater_than_equal" [LKey "query"; LKey "limit"]]
                     else Response422
                            [mkError "less_than_equal" [LKey "query"; LKey "limit"]]
                 end
             end = answer ->
             exists n, 1 <= n <= bound /\ run (VInt n) = answer).
  { intros dflt run answer Hdflt Hanswer H.
    destruct (query "limit") as [s|]; [|now exists dflt].
    destruct (str_as_int s) as [t|n]; [now destruct (Hanswer _ (eq_sym H))|].
    destruct (Z.leb_spec n bound), (Z.leb_spec 1 n);
      try (now destruct (Hanswer _ (eq_sym H))).
    exists n. split; [lia|exact H]. }
  assert (Hstore : forall n (answer : Response),
             respond (docs ← raised (get_documents kind filt (VInt n) db);
                      mret (documents (stringify_ids repr docs))) = answer ->
             (forall content, answer = Response200 content ->
                exists docs, get_documents kind filt (VInt n) db = inr docs
                             /\ content = documents (stringify_ids repr docs))
             /\ (answer = Response500 ->
                 exists msg, get_documents kind filt (VInt n) db = inl msg)).
  { intros n answer H.
    destruct (get_documents kind filt (VInt n) db) as [msg|docs]; simpl in H;
      subst answer; split; try discriminate; eauto.
    intros content [= <-]. eauto. }
  assert (Hall : forall dflt (answer : Response),
             1 <= dflt <= bound ->
             (forall detail, answer <> Response422 detail) ->
             match query "limit" with
             | None =>
                 respond (docs ← raised (get_documents kind filt (VInt dflt) db);
                          mret (documents (stringify_ids repr docs)))
             | Some s =>
                 match str_as_int s with
                 | inl t => Response422 [mkError t [LKey "query"; LKey "limit"]]
                 | inr n =>
                     if n <=? bound then
                       if 1 <=? n then
                         respond (docs ← raised (get_documents kind filt (VInt n) db);
                                  mret (documents (stringify_ids repr docs)))
                       else Response422
                              [mkError "greater_than_equal" [LKey "query"; LKey "limit"]]
                     else Response422
                            [mkError "less_than_equal" [LKey "query"; LKey "limit"]]
                 end
             end = answer ->
             exists n, 1 <= n <= bound
               /\ (forall content, answer = Response200 content ->
                     exists docs, get_documents kind filt (VInt n) db = inr docs
                                  /\ content = documents (stringify_ids repr docs))
               /\ (answer = Response500 ->
                   exists msg, get_documents kind filt (VInt n) db = inl msg)).
  { intros dflt answer Hdflt Hanswer H.
    destruct (Hrun dflt
                (fun limit =>
                   respond (docs ← raised (get_documents kind filt limit db);
                            mret (documents (stringify_ids repr docs))))
                answer Hdflt Hanswer H) as (n & Hn & Hn').
    exists n. split; [exact Hn|]. now apply Hstore. }
  assert (Hgoal : forall dflt,
             1 <= dflt <= bound ->
             match query "limit" with
             | None =>
                 respond (docs ← raised (get_documents kind filt (VInt dflt) db);
                          mret (documents (stringify_ids repr docs)))
             | Some s =>
                 match str_as_int s with
                 | inl t => Response422 [mkError t [LKey "query"; LKey "limit"]]
                 | inr n =>
                     if n <=? bound then
                       if 1 <=? n then
                         respond (docs ← raised (get_documents kind filt (VInt n) db);
                                  mret (documents (stringify_ids repr docs)))
                       else Response422
                              [mkError "greater_than_equal" [LKey "query"; LKey "limit"]]
                     else Response422
                            [mkError "less_than_equal" [LKey "query"; LKey "limit"]]
                 end
             end = route query db ->
             (forall content, route query db = Response200 content ->
                exists n docs, 1 <= n <= bound
                  /\ get_documents kind filt (VInt n) db = inr docs
                  /\ content = documents (stringify_ids repr docs))
             /\ (route query db = Response500 ->
                 exists n msg, 1 <= n <= bound
                   /\ get_documents kind filt (VInt n) db = inl msg)).
  { intros dflt Hdflt H. split.
    - intros content Hcontent.
      destruct (Hall dflt (Response200 content) Hdflt ltac:(discriminate)
                  ltac:(now rewrite H)) as (n & Hn & H200 & _).
      destruct (H200 content eq_refl) as (docs & Hdocs & ->). eauto.
    - intros H500.
      destruct (Hall dflt Response500 Hdflt ltac:(discriminate)
                  ltac:(now rewrite H)) as (n & Hn & _ & Hmsg).
      destruct (Hmsg eq_refl) as (msg & Hmsg'). eauto. }
  simpl in Hroute.
  destruct Hroute as [Heq|[Heq|[Heq|[Heq|[]]]]]; injection Heq as <- <- <- <-.
  - apply (Hgoal 20); [lia|]. now rewrite Hc.
  - apply (Hgoal 20); [lia|]. now rewrite Hp.
  - apply (Hgoal 50); [lia|]. now rewrite Hd.
  - apply (Hgoal 50); [lia|]. rewrite Hm. unfold list_messages.
    destruct (query "channel_id") as [s|]; [|reflexivity].
    simpl. now destruct (String.eqb s "").
Qed.

Lemma listing_asks_the_store_within_bounds_example :
  exists n docs,
    1 <= n <= 200
    /\ get_documents "message" [("channel_id", VStr "0")] (VInt n) examples.studio
       = inr docs
    /\ documents [ [("channel_id", VStr "0"); ("sender", VStr "ada");
                    ("text", VStr "hi"); ("voice_url", VNone); ("_id", VStr "1")] ]
       = documents (stringify_ids examples.any_repr docs).
Proof.
  exact (proj1 (listing_asks_the_store_within_bounds examples.any_repr
                  (examples.params [("channel_id", "0")]) examples.studio
                  (GET_messages examples.any_repr) "message"
                  [("channel_id", VStr "0")] 200
                  ltac:(right; right; right; left; reflexivity))
               _ eq_refl).
Defined.

Lemma dict_set_set (d : dict) (k : string) (v v' : value) :
  dict_set (dict_set d k v) k v' = dict_set d k v'.
Proof.
  induction d as [|[k0 v0] rest IH]; simpl.
  - now rewrite String.eqb_refl.
  - destruct (String.eqb k0 k) eqn:E; simpl; rewrite E; [reflexivity|].
    now rewrite IH.
Qed.

(** X11. What the list handlers do to the records of the store.  Nothing
    is added, dropped or reordered; in each record only ["_id"] changes,
    to the text [str] makes of what was there: the text of an ObjectId,
    and "None" for a record that had no ["_id"].  Doing it twice is the
    same as doing it once. *)
Theorem stringify_ids_changes_only_the_id (repr : value -> string)
    (docs : list dict) :
  Forall2 (fun d d' =>
             (forall k, k <> "_id"%string -> dict_get k d' = dict_get k d)
             /\ dict_get "_id" d' = Some (VStr (str repr (get d "_id")))
             /\ (forall oid, dict_get "_id" d = Some (VObjectId oid) ->
                             dict_get "_id" d' = Some (VStr oid))
             /\ (dict_get "_id" d = None -> dict_get "_id" d' = Some (VStr "None")))
          docs (stringify_ids repr docs)
  /\ length (stringify_ids repr docs) = length docs
  /\ stringify_ids repr (stringify_ids repr docs) = stringify_ids repr docs.
Proof.
  unfold stringify_ids. split; [|split].
  - induction docs as [|d rest IH]; simpl; constructor; [|exact IH].
    split; [intros k Hk; now apply dict_get_set_ne|].
    split; [apply dict_get_set_eq|]. split.
    + intros oid Hoid. rewrite dict_get_set_eq. unfold get. now rewrite Hoid.
    + intros Hnone. rewrite dict_get_set_eq. unfold get. now rewrite Hnone.
  - apply length_map.
  - rewrite List.map_map. apply List.map_ext. intros d.
    rewrite dict_set_set. unfold get at 1. now rewrite dict_get_set_eq.
Qed.

(* ===================================================================== *)
(** * Further properties of the probe *)
(* ===================================================================== *)

(** [s[:n]] has [n] characters, or all of them when [s] has fewer. *)
Lemma slice_to_count (n : nat) (s : string) :
  char_count (slice_to n s) = Nat.min n (char_count s).
Proof.
  revert n. induction s as [|c rest IH]; intros n; simpl; [lia|].
  destruct (is_continuation c) eqn:E.
  - simpl. rewrite E. apply IH.
  - destruct n as [|n]; simpl; [reflexivity|]. now rewrite E, IH.
Qed.

(** [s[:n]] is the beginning of [s]. *)
Lemma slice_to_prefix (n : nat) (s : string) :
  exists rest, s = (slice_to n s ++ rest)%string.
Proof.
  revert n. induction s as [|c s IH]; intros n; simpl; [now exists ""%string|].
  destruct (is_continuation c).
  - destruct (IH n) as [rest Hrest]. exists rest.
    rewrite append_cons. now rewrite <- Hrest.
  - destruct n as [|n]; [now exists (String c s)|].
    destruct (IH n) as [rest Hrest]. exists rest.
    rewrite append_cons. now rewrite <- Hrest.
Qed.

(** [s[:n]] is [s] itself when [s] has no more than [n] characters. *)
Lemma slice_to_short (n : nat) (s : string) :
  (char_count s <= n)%nat -> slice_to n s = s.
Proof.
  revert n. induction s as [|c s IH]; intros n; simpl; [reflexivity|].
  destruct (is_continuation c).
  - intros H. now rewrite IH.
  - destruct n as [|n]; [lia|]. intros H. rewrite IH; [reflexivity|lia].
Qed.

(** Cutting a text whose first character takes three bytes. *)
Example slice_to_examples :
  char_count "✅ ok" = 4%nat
  /\ String.length "✅ ok" = 6%nat
  /\ slice_to 1 "✅ ok" = "✅"
  /\ slice_to 3 "✅ ok" = "✅ o"
  /\ slice_to 50 "✅ ok" = "✅ ok".
Proof. repeat split; reflexivity. Qed.

(** X12. The report of GET /test always has the same six entries, in the
    same order, and says that the backend is running.  Its collections
    are a list of at most ten names: when the handle is there, its name
    can be read and the listing works, they are the first ten names the
    store listed, the database entry says "Connected & Working" and the
    connection status is "Connected". *)
Theorem test_database_report {DB : Type} `{!database DB}
    (getenv : string -> option string) (db : DB) :
  exists report : dict,
    test_database getenv db = Return (VDict report)
    /\ List.map fst report =
         [ "backend"; "database"; "database_url"; "database_name";
           "connection_status"; "collections" ]
    /\ dict_get "backend" report = Some (VStr "✅ Running")
    /\ (exists names,
          dict_get "collections" report = Some (VList (List.map VStr names))
          /\ (length names <= 10)%nat)
    /\ (forall names,
          db_is_None db = false ->
          (forall msg, db_name db <> AttributeRaises msg) ->
          db_list_collection_names db = inr names ->
          dict_get "collections" report = Some (VList (List.map VStr (firstn 10 names)))
          /\ dict_get "database" report = Some (VStr "✅ Connected & Working")
          /\ dict_get "connection_status" report = Some (VStr "Connected")).
Proof.
  unfold test_database, test_database_try.
  destruct (db_is_None db) eqn:Hnone; simpl.
  - eexists. repeat split; try reflexivity.
    + exists []. split; [reflexivity|simpl; lia].
    + discriminate.
    + discriminate.
    + discriminate.
  - destruct (db_name db) as [|v|msg] eqn:Hname; simpl;
      try destruct (db_list_collection_names db) as [e|names] eqn:Hlist; simpl;
      eexists; (split; [reflexivity|]); (split; [reflexivity|]);
      (split; [reflexivity|]); split;
      try (exists []; split; [reflexivity|simpl; lia]);
      try (exists (firstn 10 names); split;
           [reflexivity|rewrite List.length_firstn; lia]);
      try (intros names' _ _ [=]; fail);
      try (intros names' _ _ [= <-]; repeat split; reflexivity);
      try (intros names' _ Hraise _; now destruct (Hraise msg)).
Qed.

(** X13. Failures met by GET /test end up in the report, cut to fifty
    characters.  The cut keeps the beginning of the message: all of it
    when it has at most fifty characters, and exactly fifty characters
    otherwise; a character of several bytes is kept or dropped as a whole.
    When listing the collections raises, the database entry is
    "Connected but Error: " followed by the message cut that way, the
    connection status is still "Connected" and the collections stay empty.
    When reading the name of the handle raises, the entry is "Error: "
    followed by the message cut the same way, and the connection status
    stays "Not Connected". *)
Theorem test_database_captures_failures {DB : Type} `{!database DB}
    (getenv : string -> option string) (db : DB) (msg : string) :
  db_is_None db = false ->
  exists report : dict,
    test_database getenv db = Return (VDict report)
    /\ char_count (slice_to 50 msg) = Nat.min 50 (char_count msg)
    /\ (exists rest, msg = (slice_to 50 msg ++ rest)%string)
    /\ ((char_count msg <= 50)%nat -> slice_to 50 msg = msg)
    /\ ((forall e, db_name db <> AttributeRaises e) ->
        db_list_collection_names db = inl msg ->
        dict_get "database" report
          = Some (VStr ("⚠️  Connected but Error: " ++ slice_to 50 msg)%string)
        /\ dict_get "connection_status" report = Some (VStr "Connected")
        /\ dict_get "collections" report = Some (VList []))
    /\ (db_name db = AttributeRaises msg ->
        dict_get "database" report
          = Some (VStr ("❌ Error: " ++ slice_to 50 msg)%string)
        /\ dict_get "connection_status" report = Some (VStr "Not Connected")
        /\ dict_get "collections" report = Some (VList [])).
Proof.
  intros Hnone. unfold test_database, test_database_try. rewrite Hnone. simpl.
  destruct (db_name db) as [|v|e] eqn:Hname; simpl;
    try destruct (db_list_collection_names db) as [e'|names] eqn:Hlist; simpl;
    eexists; (split; [reflexivity|]); (split; [apply slice_to_count|]);
    (split; [apply slice_to_prefix|]); (split; [apply slice_to_short|]); split;
    try (intros _ [=]; fail);
    try (intros _ [= <-]; repeat split; reflexivity);
    try (intros [=]; fail);
    try (intros [= <-]; repeat split; reflexivity);
    try (intros Hraise; now destruct (Hraise e)).
Qed.

Lemma test_database_captures_failures_example :
  exists report : dict,
    test_database (fun _ => None) examples.offline = Return (VDict report)
    /\ dict_get "database" report
       = Some (VStr "⚠️  Connected but Error: Storage unavailable")
    /\ dict_get "connection_status" report = Some (VStr "Connected").
Proof.
  pose proof (test_database_captures_failures (fun _ => None) examples.offline
                "Storage unavailable") as H.
  destruct (H eq_refl) as (report & Hreport & _ & _ & _ & Hlisting & _).
  exists report. split; [exact Hreport|].
  destruct (Hlisting ltac:(discriminate) eq_refl) as (Hdb & Hstatus & _).
  split; [exact Hdb|exact Hstatus].
Defined.

(* ===================================================================== *)
(** * The assistant *)
(* ===================================================================== *)


(* ===================================================================== *)
(** * What a record must carry *)
(* ===================================================================== *)

Lemma a_model_accepts_fieldwise_aux (cls : ModelClass) (entries : dict) :
  (exists obj, model_validate cls (VDict entries) = inr obj) <->
  (forall name info,
     In (name, info) (model_fields cls) ->
     exists v, validate_field name info (dict_get name entries) = inr v).
Proof.
  rewrite model_validate_dict. split.
  - intros [obj H] name info Hin.
    destruct (validate_field name info (dict_get name entries)) as [[|e es]|v] eqn:Hval;
      [now apply validate_field_errors_nonempty in Hval| |eauto].
    exfalso.
    assert (Hmem : In e (fst (validate_fields (model_fields cls) entries))).
    { apply validate_fields_errors. exists name, info, (e :: es).
      split; [exact Hin|]. split; [exact Hval|now left]. }
    destruct (fst (validate_fields (model_fields cls) entries));
      [destruct Hmem|discriminate].
  - intros Hall.
    destruct (fst (validate_fields (model_fields cls) entries)) as [|e es] eqn:HE;
      [eauto|].
    exfalso.
    assert (Hmem : In e (fst (validate_fields (model_fields cls) entries)))
      by (rewrite HE; now left).
    apply validate_fields_errors in Hmem as (name & info & errors & Hin & Hval & _).
    destruct (Hall name info Hin) as [v Hv]. rewrite Hv in Hval. discriminate.
Qed.

(** X15. A model accepts an object exactly when every declared field
    validates on its own: fields are judged independently of one another
    and of the keys that are not declared. *)
Theorem a_model_accepts_fieldwise (cls : ModelClass) (entries : dict) :
  (exists obj, model_validate cls (VDict entries) = inr obj) <->
  (forall name info,
     In (name, info) (model_fields cls) ->
     exists v, validate_field name info (dict_get name entries) = inr v).
Proof. exact (a_model_accepts_fieldwise_aux cls entries). Qed.

(** A required text field validates exactly on texts. *)
Lemma required_text_field (name : string) (input : option value) :
  (exists v, validate_field name (mkField TStr Required None None) input = inr v) <->
  (exists s, input = Some (VStr s)).
Proof.
  unfold validate_field. simpl. split.
  - intros [v H]. destruct input as [[]|]; simpl in H; try discriminate. eauto.
  - intros [s ->]. simpl. eauto.
Qed.

(** An optional text field validates on texts, on null and when absent. *)
Lemma optional_text_field (name : string) (input : option value) :
  (exists v, validate_field name
               (mkField (TOptional TStr) (Default VNone) None None) input = inr v) <->
  (input = None \/ input = Some VNone \/ exists s, input = Some (VStr s)).
Proof.
  unfold validate_field. simpl. split.
  - intros [v H]. destruct input as [[]|]; simpl in H; try discriminate; eauto.
  - intros [->|[->|[s ->]]]; simpl; eauto.
Qed.

(** X16. What a message and a device must carry.  A message is accepted
    exactly when [channel_id] and [sender] are texts and each of [text]
    and [voice_url] is absent, null or text; any text will do as a
    channel identifier or as a voice URL.  A device is accepted exactly
    when [name] and [connection] are texts and [manufacturer] is absent,
    null or text; the connection is not restricted to any set of words. *)
Theorem message_and_device_requirements (entries : dict) :
  let text_at := fun key => exists s, dict_get key entries = Some (VStr s) in
  let optional_text_at := fun key =>
    dict_get key entries = None
    \/ dict_get key entries = Some VNone
    \/ exists s, dict_get key entries = Some (VStr s) in
  ((exists obj, validate_body Message (VDict entries) = inr obj) <->
   text_at "channel_id"%string /\ text_at "sender"%string
   /\ optional_text_at "text"%string /\ optional_text_at "voice_url"%string)
  /\ ((exists obj, validate_body Device (VDict entries) = inr obj) <->
      text_at "name"%string /\ text_at "connection"%string
      /\ optional_text_at "manufacturer"%string).
Proof.
  cbv zeta.
  assert (Hbody : forall cls,
             (exists obj, validate_body cls (VDict entries) = inr obj) <->
             (exists obj, model_validate cls (VDict entries) = inr obj)).
  { intros cls. unfold validate_body.
    destruct (model_validate cls (VDict entries)) as [errors|obj];
      split; intros [obj' H]; try discriminate; eauto. }
  split; rewrite Hbody, a_model_accepts_fieldwise_aux.
  - simpl. split.
    + intros H.
      split; [apply (required_text_field "channel_id"), H; auto|].
      split; [apply (required_text_field "sender"), H; auto|].
      split; [apply (optional_text_field "text"), H; auto
             |apply (optional_text_field "voice_url"), H; auto 6].
    + intros (H1 & H2 & H3 & H4) name info [Heq|[Heq|[Heq|[Heq|[]]]]];
        injection Heq as <- <-.
      * now apply required_text_field.
      * now apply required_text_field.
      * now apply optional_text_field.
      * now apply optional_text_field.
  - simpl. split.
    + intros H.
      split; [apply (required_text_field "name"), H; auto|].
      split; [apply (required_text_field "connection"), H; auto 6
             |apply (optional_text_field "manufacturer"), H; auto].
    + intros (H1 & H2 & H3) name info [Heq|[Heq|[Heq|[]]]];
        injection Heq as <- <-.
      * now apply required_text_field.
      * now apply optional_text_field.
      * now apply required_text_field.
Qed.

(* ===================================================================== *)
(** * Projects: tracks and the other fields *)
(* ===================================================================== *)

(** The errors of a list of texts: one per item that is not a text, at the
    position of the item. *)
Lemma validate_items_errors (i : nat) (items : list value) (e : ErrorDetails) :
  In e (fst (validate_items (validate_ann TStr) i items)) <->
  exists k v,
    nth_error items k = Some v
    /\ (forall s, v <> VStr s)
    /\ e = mkError "string_type" [LIdx (i + k)].
Proof.
  revert i. induction items as [|item rest IH]; intros i; cbn [validate_items].
  - simpl. split; [intros []|intros (k & v & H & _)]. now destruct k.
  - specialize (IH (S i)).
    destruct (validate_items (validate_ann TStr) (S i) rest) as [errors values].
    simpl in IH.
    assert (Hrest : In e errors <->
                    exists k v, nth_error rest k = Some v /\ (forall s, v <> VStr s)
                                /\ e = mkError "string_type" [LIdx (i + S k)]).
    { rewrite IH. split; intros (k & v & H1 & H2 & H3); exists k, v;
        (split; [exact H1|split; [exact H2|]]); rewrite H3; do 3 f_equal; lia. }
    assert (Htext : (exists s, item = VStr s /\ validate_ann TStr item = inr (VStr s))
                    \/ ((forall s, item <> VStr s)
                        /\ validate_ann TStr item = inl [mkError "string_type" []])).
    { destruct item; simpl; eauto; right; (split; [discriminate|reflexivity]). }
    destruct Htext as [(s & -> & Hv)|(Hnot & Hv)]; rewrite Hv; simpl.
    + rewrite Hrest. split.
      * intros (k & v & H1 & H2 & H3). exists (S k), v. auto.
      * intros ([|k] & v & H1 & H2 & H3).
        -- simpl in H1. injection H1 as <-. now destruct (H2 s).
        -- exists k, v. auto.
    + split.
      * intros [<-|Hin].
        -- exists 0%nat, item. split; [reflexivity|]. split; [exact Hnot|].
           unfold prefix_loc. simpl. now rewrite Nat.add_0_r.
        -- apply Hrest in Hin as (k & v & H1 & H2 & H3). exists (S k), v. auto.
      * intros ([|k] & v & H1 & H2 & H3).
        -- left. rewrite H3. unfold prefix_loc. simpl. now rewrite Nat.add_0_r.
        -- right. apply Hrest. exists k, v. auto.
Qed.

(** Where a route with a body points, and why. *)
Lemma post_rejects_at {DB : Type} (cls : ModelClass)
    (handler : BaseModel -> DB -> result value * DB) (entries : dict) (db : DB)
    (place : list LocItem) :
  rejects_at (LKey "body" :: place) (fst (post cls handler (VDict entries) db)) <->
  exists name info errors e,
    In (name, info) (model_fields cls)
    /\ validate_field name info (dict_get name entries) = inl errors
    /\ In e errors
    /\ loc e = place.
Proof.
  unfold rejects_at. split.
  - intros (detail & Hdetail & e & Hin & Hloc).
    apply post_422 in Hdetail as [Hval _].
    unfold validate_body in Hval. rewrite model_validate_dict in Hval.
    assert (Hd : detail = List.map (prefix_loc (LKey "body"))
                            (fst (validate_fields (model_fields cls) entries))).
    { destruct (fst (validate_fields (model_fields cls) entries));
        [discriminate|now injection Hval]. }
    subst detail. clear Hval.
    apply in_map_iff in Hin as (e1 & <- & Hin). simpl in Hloc. injection Hloc as Hloc.
    apply (validate_fields_errors (model_fields cls) entries e1) in Hin
      as (name & info & errors & Hmem & Hval & Hin).
    exists name, info, errors, e1. auto.
  - intros (name & info & errors & e & Hmem & Hval & Hin & Hloc).
    assert (HE : In e (fst (validate_fields (model_fields cls) entries))).
    { apply validate_fields_errors. exists name, info, errors. auto. }
    unfold post, validate_body. rewrite model_validate_dict.
    destruct (fst (validate_fields (model_fields cls) entries)) as [|e0 es] eqn:HE';
      [destruct HE|].
    eexists. split; [reflexivity|].
    exists (prefix_loc (LKey "body") e). split; [now apply in_map|].
    simpl. now rewrite Hloc.
Qed.

(** X17. Each track of a project that is not a text is reported at its own
    position: when [tracks] is a list, the answer of POST /projects points
    at [body.tracks.k] exactly when the list has an item at position [k]
    (counting from 0) and that item is not a text. *)
Theorem bad_tracks_are_reported_by_position {DB : Type} `{!database DB}
    (entries : dict) (items : list value) (db : DB) (k : nat) :
  dict_get "tracks" entries = Some (VList items) ->
  (rejects_at [LKey "body"; LKey "tracks"; LIdx k]
              (fst (POST_projects (VDict entries) db)) <->
   exists v, nth_error items k = Some v /\ forall s, v <> VStr s).
Proof.
  intros Htracks. unfold POST_projects. rewrite post_rejects_at.
  assert (Hfield : validate_field "tracks"
                     (mkField (TList TStr) (DefaultFactory (fun _ => VList [])) None None)
                     (Some (VList items)) =
                   match validate_items (validate_ann TStr) 0 items with
                   | ([], values) => inr (VList values)
                   | (errors, _) => inl (List.map (prefix_loc (LKey "tracks")) errors)
                   end).
  { unfold validate_field. cbn [annotation].
    change (validate_ann (TList TStr) (VList items))
      with (match validate_items (validate_ann TStr) 0 items with
            | ([], values) => inr (VList values)
            | (errors, _) => @inl (list ErrorDetails) value errors
            end).
    destruct (validate_items (validate_ann TStr) 0 items) as [[|e es] values];
      reflexivity. }
  split.
  - intros (name & info & errors & e & Hmem & Hval & Hin & Hloc).
    destruct (validate_field_located _ _ _ _ _ Hval Hin) as [rest Hrest].
    rewrite Hloc in Hrest. injection Hrest as <- _.
    simpl in Hmem. destruct Hmem as [H|[H|[H|[H|[]]]]]; inversion H; subst.
    rewrite Htracks, Hfield in Hval.
    pose proof (validate_items_errors 0 items) as Hitems.
    destruct (validate_items (validate_ann TStr) 0 items) as [[|e0 es] values];
      [discriminate|].
    injection Hval as <-.
    apply (proj1 (in_map_iff (prefix_loc (LKey "tracks")) (e0 :: es) e)) in Hin
      as (e1 & <- & Hin).
    simpl in Hloc.
    apply Hitems in Hin as (k' & v & Hnth & Htext & ->).
    simpl in Hloc. injection Hloc as <-. eauto.
  - intros (v & Hnth & Htext).
    pose proof (validate_items_errors 0 items
                  (mkError "string_type" [LIdx k])) as Hitems.
    assert (Hin : In (mkError "string_type" [LIdx k])
                     (fst (validate_items (validate_ann TStr) 0 items))).
    { apply Hitems. exists k, v. auto. }
    destruct (validate_items (validate_ann TStr) 0 items) as [[|e0 es] values];
      [destruct Hin|].
    eexists "tracks"%string, _, _, (prefix_loc (LKey "tracks") (mkError "string_type" [LIdx k])).
    split; [simpl; auto 6|]. rewrite Htracks, Hfield.
    split; [reflexivity|]. split; [now apply in_map|reflexivity].
Qed.

Lemma bad_tracks_are_reported_by_position_example :
  rejects_at [LKey "body"; LKey "tracks"; LIdx 1]
    (fst (POST_projects
            (VDict [ ("title", VStr "Demo");
                     ("tracks", VList [VStr "drum"; VInt 7; VStr "bass"]) ])
            examples.studio)).
Proof.
  apply (bad_tracks_are_reported_by_position
           [ ("title", VStr "Demo");
             ("tracks", VList [VStr "drum"; VInt 7; VStr "bass"]) ]
           [VStr "drum"; VInt 7; VStr "bass"] examples.studio 1 eq_refl).
  exists (VInt 7). split; [reflexivity|discriminate].
Defined.

(** A list of texts is accepted as it is, and nothing else is. *)
Lemma validate_items_accepted (i : nat) (items : list value) :
  fst (validate_items (validate_ann TStr) i items) = [] ->
  exists tracks,
    items = List.map VStr tracks
    /\ snd (validate_items (validate_ann TStr) i items) = items.
Proof.
  revert i. induction items as [|item rest IH]; intros i; cbn [validate_items].
  - intros _. now exists [].
  - specialize (IH (S i)).
    destruct (validate_items (validate_ann TStr) (S i) rest) as [errors values].
    simpl in IH. destruct item; simpl; try discriminate.
    intros Herrors. destruct (IH Herrors) as (tracks & -> & ->).
    now exists (s :: tracks).
Qed.

Lemma tracks_field (input : option value) (v : value) :
  validate_field "tracks"
    (mkField (TList TStr) (DefaultFactory (fun _ => VList [])) None None) input = inr v ->
  (input = None /\ v = VList [])
  \/ exists tracks, input = Some (VList (List.map VStr tracks))
                    /\ v = VList (List.map VStr tracks).
Proof.
  unfold validate_field. cbn [annotation default].
  destruct input as [x|]; [|intros [= <-]; now left].
  destruct x; try discriminate.
  change (validate_ann (TList TStr) (VList items))
    with (match validate_items (validate_ann TStr) 0 items with
          | ([], values) => inr (VList values)
          | (errors, _) => @inl (list ErrorDetails) value errors
          end).
  pose proof (validate_items_accepted 0 items) as Hitems.
  destruct (validate_items (validate_ann TStr) 0 items) as [[|e es] values];
    [|discriminate].
  simpl in Hitems. destruct (Hitems eq_refl) as (tracks & -> & ->).
  simpl. intros [= <-]. right. now exists tracks.
Qed.

(** X18. The shape of an accepted project.  The record holds the title as
    given (a text is required), the bpm that was read, the key as given or
    "C Major" when none was given, and the tracks as given, all of them
    texts, or the empty list when none were given. *)
Theorem accepted_project_shape (entries : dict) (obj : BaseModel) :
  validate_body Project (VDict entries) = inr obj ->
  exists (title key : string) (n : Z) (tracks : list string),
    obj = mkInstance Project
            [ ("title", VStr title); ("bpm", VInt n); ("key", VStr key);
              ("tracks", VList (List.map VStr tracks)) ]
    /\ dict_get "title" entries = Some (VStr title)
    /\ 40 <= n <= 300
    /\ (dict_get "key" entries = Some (VStr key)
        \/ dict_get "key" entries = None /\ key = "C Major"%string)
    /\ (dict_get "tracks" entries = Some (VList (List.map VStr tracks))
        \/ dict_get "tracks" entries = None /\ tracks = []).
Proof.
  intros Hbody.
  destruct (accepted_project_bpm entries obj Hbody) as (n & Hbpm & Hn & _ & _).
  unfold validate_body in Hbody. rewrite model_validate_dict in Hbody.
  pose proof (validate_fields_accepted (model_fields Project) entries) as HE.
  destruct (validate_fields (model_fields Project) entries) as [errors values].
  simpl fst in *. simpl snd in *.
  destruct errors as [|e es]; [|discriminate].
  injection Hbody as <-. specialize (HE eq_refl).
  destruct values as [|[k1 v1] [|[k2 v2] [|[k3 v3] [|[k4 v4] [|? ?]]]]];
    simpl in HE; inversion HE as [|? ? ? ? [H1k H1] HE1]; subst;
    inversion HE1 as [|? ? ? ? [H2k H2] HE2]; subst;
    inversion HE2 as [|? ? ? ? [H3k H3] HE3]; subst;
    inversion HE3 as [|? ? ? ? [H4k H4] HE4]; subst;
    inversion HE4; subst.
  clear HE HE1 HE2 HE3 HE4. simpl in *. subst.
  injection Hbpm as ->.
  destruct (dict_get "title" entries) as [x1|]; [|discriminate].
  apply validate_str_field in H1 as (title & -> & ->).
  assert (Hkey : exists key, v3 = VStr key
                   /\ (dict_get "key" entries = Some (VStr key)
                       \/ dict_get "key" entries = None /\ key = "C Major"%string)).
  { destruct (dict_get "key" entries) as [x3|].
    - apply validate_str_field in H3 as (key & -> & ->). eauto.
    - injection H3 as <-. eauto. }
  destruct Hkey as (key & -> & Hkey).
  apply tracks_field in H4.
  exists title, key, n.
  destruct H4 as [[Hnone ->]|(tracks & Hsome & ->)].
  - exists []. repeat split; auto; lia.
  - exists tracks. repeat split; auto; lia.
Qed.

Lemma accepted_project_shape_example :
  exists (title key : string) (n : Z) (tracks : list string),
    mkInstance Project
      [ ("title", VStr "Demo"); ("bpm", VInt 128); ("key", VStr "A Minor");
        ("tracks", VList [VStr "drum"; VStr "bass"]) ]
    = mkInstance Project
        [ ("title", VStr title); ("bpm", VInt n); ("key", VStr key);
          ("tracks", VList (List.map VStr tracks)) ]
    /\ 40 <= n <= 300.
Proof.
  destruct (accepted_project_shape
              [ ("title", VStr "Demo"); ("bpm", VInt 128); ("key", VStr "A Minor");
                ("tracks", VList [VStr "drum"; VStr "bass"]) ]
              (mkInstance Project
                 [ ("title", VStr "Demo"); ("bpm", VInt 128); ("key", VStr "A Minor");
                   ("tracks", VList [VStr "drum"; VStr "bass"]) ])
              eq_refl)
    as (title & key & n & tracks & Hobj & _ & Hn & _).
  exists title, key, n, tracks. split; [exact Hobj|exact Hn].
Defined.

(* ===================================================================== *)
(** * Validating twice *)
(* ===================================================================== *)

Lemma validate_items_revalidate (f : value -> list ErrorDetails + value) :
  (forall x y, f x = inr y -> f y = inr y) ->
  (forall x, f x <> inl []) ->
  forall items i j,
    fst (validate_items f i items) = [] ->
    validate_items f j (snd (validate_items f i items))
    = ([], snd (validate_items f i items)).
Proof.
  intros Hidem Hnonempty.
  induction items as [|item rest IH]; intros i j; cbn [validate_items];
    [reflexivity|].
  specialize (IH (S i) (S j)).
  destruct (validate_items f (S i) rest) as [errors values]. simpl in IH.
  destruct (f item) as [es|v] eqn:Hitem; simpl.
  - intros H. apply app_eq_nil in H as [H _]. apply map_eq_nil in H. subst es.
    now apply Hnonempty in Hitem.
  - intros ->. rewrite (IH eq_refl). now rewrite (Hidem _ _ Hitem).
Qed.

(** What validation returns, validation returns again. *)
Lemma validate_ann_idempotent (a : ann) (v v' : value) :
  validate_ann a v = inr v' -> validate_ann a v' = inr v'.
Proof.
  revert v v'. induction a as [| |a IH|a IH]; intros v v'.
  - simpl. destruct v; simpl; try discriminate. now intros [= <-].
  - simpl. destruct (int_validator v); [discriminate|]. now intros [= <-].
  - cbn [validate_ann]. destruct v; try (intros H; apply IH in H; now destruct v').
    now intros [= <-].
  - cbn [validate_ann]. destruct v; try discriminate.
    pose proof (validate_items_revalidate (validate_ann a) IH
                  (validate_ann_errors_nonempty a) items 0%nat 0%nat) as Hitems.
    destruct (validate_items (validate_ann a) 0 items) as [[|e es] values];
      [|discriminate].
    intros [= <-]. simpl in Hitems. cbn [validate_ann]. now rewrite (Hitems eq_refl).
Qed.

Lemma validate_field_idempotent (name : string) (info : FieldInfo) (v v' : value) :
  validate_field name info (Some v) = inr v' ->
  validate_field name info (Some v') = inr v'.
Proof.
  unfold validate_field.
  destruct (validate_ann (annotation info) v) as [errors|v1] eqn:Hann; [discriminate|].
  destruct (check_bounds info v1) as [|e es] eqn:Hb; [|discriminate].
  intros [= <-]. rewrite (validate_ann_idempotent _ _ _ Hann). now rewrite Hb.
Qed.

(** Under distinct field names, the dump of an accepted instance gives
    back, for each field, the value that was validated. *)
Lemma dump_lookup (fields : list (string * FieldInfo)) (entries values : dict) :
  Forall2 (fun field entry =>
             fst entry = fst field
             /\ validate_field (fst field) (snd field) (dict_get (fst field) entries)
                = inr (snd entry))
          fields values ->
  List.NoDup (List.map fst fields) ->
  forall name info,
    In (name, info) fields ->
    exists v,
      dict_get name values = Some v
      /\ validate_field name info (dict_get name entries) = inr v.
Proof.
  induction 1 as [|[fname finfo] [ename ev] fields values [Hk Hv] _ IH];
    intros Hnodup name info Hin; [destruct Hin|].
  simpl in Hk, Hv. subst ename. simpl in Hnodup.
  inversion Hnodup as [|? ? Hnotin Hnodup']; subst.
  destruct Hin as [[= <- <-]|Hin].
  - exists ev. simpl. now rewrite String.eqb_refl.
  - destruct (IH Hnodup' name info Hin) as (v & Hget & Hval).
    exists v. split; [|exact Hval]. simpl.
    destruct (String.eqb_spec fname name) as [->|_]; [|exact Hget].
    exfalso. apply Hnotin. apply in_map_iff. now exists (name, info).
Qed.

Lemma revalidation_general (cls : ModelClass) (input : value) (obj : BaseModel) :
  List.NoDup (List.map fst (model_fields cls)) ->
  (forall name info,
     In (name, info) (model_fields cls) ->
     match default info with
     | Required => True
     | Default v => validate_field name info (Some v) = inr v
     | DefaultFactory make => validate_field name info (Some (make tt)) = inr (make tt)
     end) ->
  model_validate cls input = inr obj ->
  model_validate cls (VDict (model_dump obj)) = inr obj.
Proof.
  intros Hnodup Hdefaults Hobj.
  destruct input; try discriminate.
  pose proof Hobj as Hsame.
  rewrite model_validate_dict in Hobj.
  pose proof (validate_fields_accepted (model_fields cls) entries) as HE.
  destruct (fst (validate_fields (model_fields cls) entries)) as [|e es] eqn:Hfst;
    [|discriminate].
  injection Hobj as <-. specialize (HE eq_refl). cbn [model_dump].
  rewrite <- Hsame. unfold model_validate.
  rewrite (validate_fields_ext (model_fields cls)
             (snd (validate_fields (model_fields cls) entries)) entries);
    [reflexivity|].
  intros name info Hin.
  destruct (dump_lookup _ _ _ HE Hnodup name info Hin) as (v & Hget & Hval).
  rewrite Hget, Hval.
  destruct (dict_get name entries) as [x|].
  - now apply validate_field_idempotent in Hval.
  - specialize (Hdefaults name info Hin). unfold validate_field in Hval.
    destruct (default info); [discriminate| |]; now injection Hval as <-.
Qed.

(** X19. Validation is idempotent on every model of the application: when
    a model accepts an input, validating the dump of the accepted instance
    against the same model accepts again and returns the same instance.
    (The defaults of every model pass their own validation, and no model
    declares a field twice.) *)
Theorem revalidation_returns_the_instance (cls : ModelClass) (input : value)
    (obj : BaseModel) :
  In cls [ Channel; Message; PaymentIntent; Project; Device;
           CreatePaymentRequest; SchemaResponse; AssistantMessage ] ->
  model_validate cls input = inr obj ->
  model_validate cls (VDict (model_dump obj)) = inr obj.
Proof.
  intros Hcls. apply revalidation_general.
  - simpl in Hcls.
    destruct Hcls as [<-|[<-|[<-|[<-|[<-|[<-|[<-|[<-|[]]]]]]]]];
      simpl; repeat (constructor; [simpl; intuition discriminate|]); constructor.
  - intros name info Hin. simpl in Hcls.
    destruct Hcls as [<-|[<-|[<-|[<-|[<-|[<-|[<-|[<-|[]]]]]]]]];
      simpl in Hin;
      repeat (destruct Hin as [[= <- <-]|Hin]; [simpl; try reflexivity; exact I|]);
      destruct Hin.
Qed.

Lemma revalidation_returns_the_instance_example :
  model_validate Project
    (VDict [ ("title", VStr "Demo"); ("bpm", VInt 128);
             ("key", VStr "C Major"); ("tracks", VList []) ])
  = inr (mkInstance Project
           [ ("title", VStr "Demo"); ("bpm", VInt 128);
             ("key", VStr "C Major"); ("tracks", VList []) ]).
Proof.
  exact (revalidation_returns_the_instance Project
           (VDict [("title", VStr "Demo"); ("bpm", VStr " 128 ")])
           (mkInstance Project
              [ ("title", VStr "Demo"); ("bpm", VInt 128);
                ("key", VStr "C Major"); ("tracks", VList []) ])
           ltac:(simpl; auto) eq_refl).
Defined.
